(** * SonyProjectorControl: on.py, off.py and query.py

    A shallow embedding of the three scripts that drive a Sony VPL-FH30
    projector through its web interface, and the properties of their status
    normalisation, status extraction and polling sessions.

    Python text ([str]) is a sequence of Unicode code points; it is modelled
    as [list N].  The built-in methods the scripts call ([str.strip],
    [str.upper], [str.replace], [in], [==]) and the two regular expressions
    are written out below.  The part of [str.upper] that depends on the
    interpreter's Unicode database (code points from 128 on) is the one
    field of the class [Unicode]: every statement holds for every such
    database. *)

From Stdlib Require Import List NArith ZArith String Ascii Bool Lia.
Import ListNotations.

Local Open Scope N_scope.

(** ** Python text *)

Definition char := N.
Definition str := list char.

(** A literal of the source, written as a Rocq string of ASCII characters. *)
Definition lit (s : string) : str := map N_of_ascii (list_ascii_of_string s).

(** [a == b] on text. *)
Fixpoint str_eqb (a b : str) : bool :=
  match a, b with
  | [], [] => true
  | x :: a', y :: b' => (x =? y) && str_eqb a' b'
  | _, _ => false
  end.

(** [x in (t1, ..., tn)]: membership in a tuple compares with [==]. *)
Definition in_tuple (x : str) (ts : list str) : bool := existsb (str_eqb x) ts.

(** [s.startswith(p)], the step of the substring test below. *)
Fixpoint starts_with (p s : str) : bool :=
  match p, s with
  | [], _ => true
  | x :: p', y :: s' => (x =? y) && starts_with p' s'
  | _ :: _, [] => false
  end.

(** [p in s] on text: [p] occurs in [s] as a contiguous substring. *)
Fixpoint contains (p s : str) : bool :=
  starts_with p s ||
  match s with
  | [] => false
  | _ :: s' => contains p s'
  end.

(** [str.isspace] on one code point, the test behind [str.strip()] and behind
    [\s] in a text pattern: U+0009..U+000D, U+001C..U+0020, U+0085, U+00A0,
    U+1680, U+2000..U+200A, U+2028, U+2029, U+202F, U+205F and U+3000. *)
Definition isspace (c : char) : bool :=
  ((9 <=? c) && (c <=? 13)) || ((28 <=? c) && (c <=? 32)) ||
  (c =? 133) || (c =? 160) || (c =? 5760) ||
  ((8192 <=? c) && (c <=? 8202)) ||
  (c =? 8232) || (c =? 8233) || (c =? 8239) || (c =? 8287) || (c =? 12288).

Fixpoint lstrip (s : str) : str :=
  match s with
  | c :: s' => if isspace c then lstrip s' else s
  | [] => []
  end.

Definition rstrip (s : str) : str := rev (lstrip (rev s)).

(** [s.strip()]: leading and trailing white space removed. *)
Definition strip (s : str) : str := rstrip (lstrip s).

(** The Unicode database of the interpreter, as far as the scripts reach it
    beyond ASCII: the full upper-case mapping of a code point from 128 on
    (one code point may map to several, as U+00DF does). *)
Class Unicode := { upper_beyond_ascii : char -> str }.

Definition upper_char `{Unicode} (c : char) : str :=
  if (97 <=? c) && (c <=? 122) then [c - 32]
  else if c <? 128 then [c]
  else upper_beyond_ascii c.

(** [s.upper()]: every code point replaced by its upper-case mapping. *)
Definition upper `{Unicode} (s : str) : str := flat_map upper_char s.

(** [s.replace(c, "")] for a one-character [c]: every occurrence removed. *)
Definition remove_char (c : char) (s : str) : str :=
  filter (fun x => negb (x =? c)) s.

(** ** Regular expressions

    A pattern is matched at the head of a text by a function in
    continuation-passing style: [m k s] matches a prefix of [s] and hands the
    rest to the continuation [k], whose failure makes [m] try its next
    alternative, as the backtracking matcher of [re] does. *)

Section Matcher.
Context {A : Type}.

(** A literal ASCII character of a pattern compiled with [re.IGNORECASE].
    The patterns below write their letters in lower case; beyond the two
    ASCII cases, [i] also matches U+0130 and U+0131, [s] matches U+017F and
    [k] matches U+212A. *)
Definition ichar_matches (p c : char) : bool :=
  (c =? p) ||
  ((97 <=? p) && (p <=? 122) && (c =? p - 32)) ||
  ((p =? 105) && ((c =? 304) || (c =? 305))) ||
  ((p =? 115) && (c =? 383)) ||
  ((p =? 107) && (c =? 8490)).

(** One literal character, case-sensitive or not. *)
Definition chr (ignorecase : bool) (p : char) (k : str -> option A)
    (s : str) : option A :=
  match s with
  | c :: s' =>
      if (if ignorecase then ichar_matches p c else c =? p) then k s'
      else None
  | [] => None
  end.

(** A run of literal characters. *)
Fixpoint chars (ignorecase : bool) (p : str) (k : str -> option A)
    (s : str) : option A :=
  match p with
  | [] => k s
  | x :: p' => chr ignorecase x (chars ignorecase p' k) s
  end.

(** [C*] for a character class [C], greedy: the longest run first, then
    shorter ones. *)
Fixpoint star (cls : char -> bool) (k : str -> option A) (s : str)
    : option A :=
  match s with
  | c :: s' =>
      if cls c then
        match star cls k s' with
        | Some r => Some r
        | None => k s
        end
      else k s
  | [] => k []
  end.

(** [C+]: one character of the class, then [C*]. *)
Definition plus (cls : char -> bool) (k : str -> option A) (s : str)
    : option A :=
  match s with
  | c :: s' => if cls c then star cls k s' else None
  | [] => None
  end.

(** A capturing group around [C*]: as [star], and the continuation also
    receives the text the group captured ([acc] is what it holds so far). *)
Fixpoint star_group (cls : char -> bool) (k : str -> str -> option A)
    (acc s : str) : option A :=
  match s with
  | c :: s' =>
      if cls c then
        match star_group cls k (acc ++ [c]) s' with
        | Some r => Some r
        | None => k acc s
        end
      else k acc s
  | [] => k acc []
  end.

(** [pattern.search(s)]: the match at the leftmost position that has one;
    the position after the last character is tried as well. *)
Fixpoint search (m : str -> option A) (s : str) : option A :=
  match m s with
  | Some r => Some r
  | None =>
      match s with
      | [] => None
      | _ :: s' => search m s'
      end
  end.
End Matcher.

(** [pattern.findall(s)] for a pattern with one group: the group of every
    match, left to right, each search resuming where the previous match
    ended.  [m] returns the group and the text after the match; a match of
    the patterns below is never empty.  The first argument bounds the number
    of positions still to visit. *)
Fixpoint findall_from (n : nat) (m : str -> option (str * str)) (s : str)
    : list str :=
  match n with
  | O => []
  | S n' =>
      match m s with
      | Some (g, rest) => g :: findall_from n' m rest
      | None =>
          match s with
          | [] => []
          | _ :: s' => findall_from n' m s'
          end
      end
  end.

Definition findall (m : str -> option (str * str)) (s : str) : list str :=
  findall_from (S (List.length s)) m s.

(** ** The device and the process

    The scripts talk to the projector through [urllib] and read the clock.
    The device is an oracle: what the k-th GET of the status page does and how
    long it blocks, and the same for the k-th GET of the toggle URL; the
    clock runs on during a GET and during a sleep, which may last longer than
    asked.  Time is counted in the units of [time.time()].  The process
    writes to a standard output that takes some characters and not others:
    it takes a character when its encoding has it (UTF-8 has them all, ASCII
    and cp1252 lack U+2705 and U+26A0) or its error handler replaces it. *)

(** The exception classes a GET can raise.  [HTTPError] is a subclass of
    [URLError]; a timeout while the response is read, a broken response and a
    malformed URL are raised as themselves.  All are subclasses of
    [Exception]. *)
Inductive exn := URLError | HTTPError | TimeoutError | HTTPException | ValueError.

(** [isinstance(e, urllib.error.URLError)]. *)
Definition is_URLError (e : exn) : bool :=
  match e with
  | URLError | HTTPError => true
  | _ => false
  end.

(** [isinstance(e, urllib.error.HTTPError)]. *)
Definition is_HTTPError (e : exn) : bool :=
  match e with
  | HTTPError => true
  | _ => false
  end.

Record device := {
  boot : Z;                        (* the clock when the script starts *)
  status_page : nat -> exn + str;  (* k-th [fetch]: raises, or the decoded page *)
  status_delay : nat -> N;         (* the time the k-th [fetch] takes *)
  toggle_reply : nat -> option exn;(* k-th toggle GET: raises, or succeeds *)
  toggle_delay : nat -> N;         (* the time the k-th toggle GET takes *)
  oversleep : nat -> N;            (* by how much the k-th sleep overruns *)
  encodable : char -> bool         (* whether [sys.stdout] takes the character *)
}.

(** The lines the two power scripts print, by the statement that prints them;
    the status a line shows is its argument. *)
Inductive line :=
| Checking                 (* "[info] Checking projector {ip} status..." *)
| CurrentStatus (s : str)  (* "[info] Current status: {status}" *)
| Already                  (* "Projector already ON or starting up." / "already OFF." *)
| Cooling                  (* "[info] Projector is cooling; waiting for OFF..." *)
| Sending                  (* "[info] Sending toggle to power ON..." / "OFF..." *)
| ToggleSent               (* "[info] Sent toggle command to {url}" *)
| ToggleFailed (e : exn)   (* "[warn] toggle failed: {e}" *)
| FetchFailed (e : exn)    (* "[warn] status fetch failed: {e}" *)
| PollStatus (s : str)     (* "[poll] Status: {status}" *)
| Reached                  (* "Projector is now ON (or in STARTUP)." / "now OFF." *)
| TimedOut.                (* "Timeout waiting for projector to power ON." / "OFF." *)

(** The characters of a line beyond ASCII.  The three lines that end a run
    start with a sign: [Already] and [Reached] with U+2705, [TimedOut] with
    U+26A0 and U+FE0F.  The other lines are ASCII (the address and the text
    of an exception, which some of them show, are taken to be ASCII). *)
Definition symbols (l : line) : str :=
  match l with
  | Already | Reached => [9989]
  | TimedOut => [9888; 65039]
  | _ => []
  end.

(** Whether [print] writes the line: it raises [UnicodeEncodeError] when
    standard output does not take one of the line's characters. *)
Definition prints (d : device) (l : line) : bool :=
  forallb (encodable d) (symbols l).

(** What a run does, in order. *)
Inductive event :=
| GetStatus                (* a GET of the status page *)
| GetToggle                (* a GET of the toggle URL *)
| Sleep (d : Z)            (* [time.sleep(d)] *)
| Stdout (l : line).       (* the call [print(...)] of that line *)

(** The process: the clock, the GETs and sleeps made so far, the local
    [start] of [main] (0 until it is assigned) and the events so far, oldest
    first. *)
Record state := {
  now : Z;
  fetches : nat;
  toggles : nat;
  naps : nat;
  start : Z;
  events : list event
}.

Definition initial (d : device) : state :=
  {| now := boot d; fetches := 0; toggles := 0; naps := 0; start := 0;
     events := [] |}.

Definition emit (e : event) (st : state) : state :=
  {| now := now st; fetches := fetches st; toggles := toggles st;
     naps := naps st; start := start st; events := events st ++ [e] |}.

(** The call [print(line)].  It is an event of the run whether the line is
    written or the call raises; only a line with a sign can make it raise
    ([prints]), and each of those is the last statement before a
    [sys.exit]. *)
Definition say (l : line) (st : state) : state := emit (Stdout l) st.

(** [print(line)] followed by [sys.exit(code)], the way a run of [main]
    ends; the result is the exit status of the process and the state it
    leaves.  When the print raises, nothing catches the exception: the
    interpreter prints the traceback and ends with status 1, whatever
    [code] is. *)
Definition say_and_exit (d : device) (l : line) (code : Z) (st : state)
    : option (Z * state) :=
  Some (if prints d l then code else 1%Z, say l st).

(** [time.sleep(t)]: the process is suspended for [t], or longer. *)
Definition sleep (d : device) (t : Z) (st : state) : state :=
  emit (Sleep t)
    {| now := (now st + t + Z.of_N (oversleep d (naps st)))%Z;
       fetches := fetches st; toggles := toggles st; naps := S (naps st);
       start := start st; events := events st |}.

(** [start = time.time()]. *)
Definition set_start (st : state) : state :=
  {| now := now st; fetches := fetches st; toggles := toggles st;
     naps := naps st; start := now st; events := events st |}.

(** [fetch(url, timeout)] on the status URL: one GET, which takes its time and
    raises or returns the page (the decoding of [fetch] falls back to latin-1
    and does not raise). *)
Definition fetch (d : device) (st : state) : (exn + str) * state :=
  (status_page d (fetches st),
   emit GetStatus
     {| now := (now st + Z.of_N (status_delay d (fetches st)))%Z;
        fetches := S (fetches st); toggles := toggles st; naps := naps st;
        start := start st; events := events st |}).

(** [toggle_power(ip)]: one GET of the toggle URL; a failure is printed and
    swallowed. *)
Definition toggle_power (d : device) (st : state) : state :=
  let st' :=
    emit GetToggle
      {| now := (now st + Z.of_N (toggle_delay d (toggles st)))%Z;
         fetches := fetches st; toggles := S (toggles st); naps := naps st;
         start := start st; events := events st |} in
  match toggle_reply d (toggles st) with
  | None => say ToggleSent st'
  | Some e => say (ToggleFailed e) st'
  end.

(** The toggles and status reads in a list of events. *)
Definition toggle_count (es : list event) : nat :=
  List.length (filter (fun e => match e with GetToggle => true | _ => false end) es).

Definition status_count (es : list event) : nat :=
  List.length (filter (fun e => match e with GetStatus => true | _ => false end) es).

(** The four canonical states, as the text the scripts compare. *)
Definition ON : str := lit "ON".
Definition OFF : str := lit "OFF".
Definition COOLING : str := lit "COOLING".
Definition UNKNOWN : str := lit "UNKNOWN".

(** ** on.py *)

Module On.

Definition POLL_INTERVAL : Z := 3.
Definition MAX_WAIT : Z := 90.

(** The pattern  var \s+ info_status_value \s* = \s* \[ ( [^\]]* ) \]
    (written here with blanks between its parts), compiled with
    [re.IGNORECASE] and matched at the head of [s]; the result is group 1. *)
Definition STATUS_RE (s : str) : option str :=
  chars true (lit "var")
    (plus isspace
      (chars true (lit "info_status_value")
        (star isspace
          (chars true (lit "=")
            (star isspace
              (chars true (lit "[")
                (star_group (fun c => negb (c =? 93))
                  (fun g => chars true (lit "]") (fun _ => Some g))
                  []))))))) s.

(** The pattern  ' ( [^']* ) '  (written here with blanks between its
    parts), matched at the head of [s]; the result is group 1 and the text
    after the match. *)
Definition QUOTED_ITEM_RE (s : str) : option (str * str) :=
  chars false (lit "'")
    (star_group (fun c => negb (c =? 39))
      (fun g => chars false (lit "'") (fun rest => Some (g, rest)))
      []) s.

Definition parse_info_status (html : str) : option str :=
  let compact := remove_char 10 (remove_char 13 html) in
  match search STATUS_RE compact with
  | None => None
  | Some array_content =>
      let items := findall QUOTED_ITEM_RE array_content in
      match items with
      | first :: _ => Some first
      | [] => None
      end
  end.

Definition normalize_status `{Unicode} (s : option str) : str :=
  match s with
  | None => UNKNOWN
  | Some s =>
      let up := upper (strip s) in
      if in_tuple up [lit "ON"; lit "STARTUP"; lit "STARTUP1"; lit "STARTUP2"] then ON
      else if in_tuple up [lit "OFF"; lit "STANDBY"] then OFF
      else if contains (lit "COOL") up || contains (lit "WARM") up then COOLING
      else UNKNOWN
  end.

(** [except Exception] catches whatever [fetch] raises. *)
Definition get_status `{Unicode} (d : device) (st : state) : str * state :=
  match fetch d st with
  | (inl e, st') => (UNKNOWN, say (FetchFailed e) st')
  | (inr html, st') => (normalize_status (parse_info_status html), st')
  end.

(** The [while] loop of [main]; a run that ends gives [Some] of its exit
    status and the state it leaves.  [fuel] bounds the iterations: [None] is a run cut
    short by the bound, which [main] never is ([main_total]). *)
Fixpoint poll `{Unicode} (d : device) (fuel : nat) (st : state)
    : option (Z * state) :=
  if (now st - start st <? MAX_WAIT)%Z then
    match fuel with
    | O => None
    | S fuel' =>
        let st := sleep d POLL_INTERVAL st in
        let '(status, st) := get_status d st in
        let st := say (PollStatus status) st in
        if str_eqb status ON then say_and_exit d Reached 0 st
        else poll d fuel' st
    end
  else say_and_exit d TimedOut 1 st.

Definition main `{Unicode} (d : device) : option (Z * state) :=
  let st := say Checking (initial d) in
  let '(status, st) := get_status d st in
  let st := say (CurrentStatus status) st in
  if str_eqb status ON then say_and_exit d Already 0 st
  else
    let st := say Sending st in
    let st := toggle_power d st in
    let st := set_start st in
    poll d (Z.to_nat MAX_WAIT) st.

(** The status the k-th call of [get_status] measures on the device [d]. *)
Definition reading `{Unicode} (d : device) (k : nat) : str :=
  match status_page d k with
  | inl _ => UNKNOWN
  | inr html => normalize_status (parse_info_status html)
  end.

End On.

(** ** off.py *)

Module Off.

Definition POLL_INTERVAL : Z := 5.
Definition MAX_WAIT : Z := 180.

(** The pattern  var \s+ info_status_value \s* = \s* \[ ( [^\]]* ) \]
    (written here with blanks between its parts), compiled with
    [re.IGNORECASE] and matched at the head of [s]; the result is group 1. *)
Definition STATUS_RE (s : str) : option str :=
  chars true (lit "var")
    (plus isspace
      (chars true (lit "info_status_value")
        (star isspace
          (chars true (lit "=")
            (star isspace
              (chars true (lit "[")
                (star_group (fun c => negb (c =? 93))
                  (fun g => chars true (lit "]") (fun _ => Some g))
                  []))))))) s.

(** The pattern  ' ( [^']* ) '  (written here with blanks between its
    parts), matched at the head of [s]; the result is group 1 and the text
    after the match. *)
Definition QUOTED_ITEM_RE (s : str) : option (str * str) :=
  chars false (lit "'")
    (star_group (fun c => negb (c =? 39))
      (fun g => chars false (lit "'") (fun rest => Some (g, rest)))
      []) s.

Definition parse_info_status (html : str) : option str :=
  let compact := remove_char 10 (remove_char 13 html) in
  match search STATUS_RE compact with
  | None => None
  | Some array_content =>
      let items := findall QUOTED_ITEM_RE array_content in
      match items with
      | first :: _ => Some first
      | [] => None
      end
  end.

Definition normalize_status `{Unicode} (s : option str) : str :=
  match s with
  | None => UNKNOWN
  | Some s =>
      let up := upper (strip s) in
      if in_tuple up [lit "ON"; lit "STARTUP"; lit "STARTUP1"; lit "STARTUP2";
                      lit "POWER ON"] then ON
      else if in_tuple up [lit "OFF"; lit "STANDBY"] then OFF
      else if contains (lit "COOL") up || contains (lit "WARM") up then COOLING
      else UNKNOWN
  end.

(** [except Exception] catches whatever [fetch] raises. *)
Definition get_status `{Unicode} (d : device) (st : state) : str * state :=
  match fetch d st with
  | (inl e, st') => (UNKNOWN, say (FetchFailed e) st')
  | (inr html, st') => (normalize_status (parse_info_status html), st')
  end.

(** The [while] loop of [main]; a run that ends gives [Some] of its exit
    status and the state it leaves.  [fuel] bounds the iterations: [None] is a run cut
    short by the bound, which [main] never is ([main_total]). *)
Fixpoint poll `{Unicode} (d : device) (fuel : nat) (st : state)
    : option (Z * state) :=
  if (now st - start st <? MAX_WAIT)%Z then
    match fuel with
    | O => None
    | S fuel' =>
        let st := sleep d POLL_INTERVAL st in
        let '(status, st) := get_status d st in
        let st := say (PollStatus status) st in
        if str_eqb status OFF then say_and_exit d Reached 0 st
        else poll d fuel' st
    end
  else say_and_exit d TimedOut 1 st.

Definition main `{Unicode} (d : device) : option (Z * state) :=
  let st := say Checking (initial d) in
  let '(status, st) := get_status d st in
  let st := say (CurrentStatus status) st in
  if str_eqb status OFF then say_and_exit d Already 0 st
  else
    let st := if str_eqb status COOLING then say Cooling st else st in
    let st :=
      if str_eqb status ON then toggle_power d (say Sending st) else st in
    let st := set_start st in
    poll d (Z.to_nat MAX_WAIT) st.

(** The status the k-th call of [get_status] measures on the device [d]. *)
Definition reading `{Unicode} (d : device) (k : nat) : str :=
  match status_page d k with
  | inl _ => UNKNOWN
  | inr html => normalize_status (parse_info_status html)
  end.

End Off.

(** ** query.py *)

Module Query.

(** The pattern  var \s+ info_status_value \s* = \s* \[ ( [^\]]* ) \]
    (written here with blanks between its parts), compiled with
    [re.IGNORECASE] and matched at the head of [s]; the result is group 1. *)
Definition STATUS_RE (s : str) : option str :=
  chars true (lit "var")
    (plus isspace
      (chars true (lit "info_status_value")
        (star isspace
          (chars true (lit "=")
            (star isspace
              (chars true (lit "[")
                (star_group (fun c => negb (c =? 93))
                  (fun g => chars true (lit "]") (fun _ => Some g))
                  []))))))) s.

(** The pattern  ' ( [^']* ) '  (written here with blanks between its
    parts), matched at the head of [s]; the result is group 1 and the text
    after the match. *)
Definition QUOTED_ITEM_RE (s : str) : option (str * str) :=
  chars false (lit "'")
    (star_group (fun c => negb (c =? 39))
      (fun g => chars false (lit "'") (fun rest => Some (g, rest)))
      []) s.

(** Returns the first item (if any) and all the items. *)
Definition parse_info_status (html : str) : option str * list str :=
  let compact := remove_char 10 (remove_char 13 html) in
  match search STATUS_RE compact with
  | None => (None, [])
  | Some array_content =>
      let items := findall QUOTED_ITEM_RE array_content in
      let first := match items with x :: _ => Some x | [] => None end in
      (first, items)
  end.

Definition normalize_status `{Unicode} (s : option str) : str :=
  match s with
  | None => UNKNOWN
  | Some s =>
      let up := upper (strip s) in
      if in_tuple up [lit "ON"; lit "STARTUP"; lit "STARTUP1"; lit "STARTUP2";
                      lit "POWER ON"] then ON
      else if in_tuple up [lit "OFF"; lit "STANDBY"] then OFF
      else if contains (lit "COOL") up || contains (lit "WARM") up then COOLING
      else UNKNOWN
  end.

(** How the process ends: [sys.exit(code)], or an exception nothing caught,
    on which the interpreter prints a traceback. *)
Inductive ending := Exit (code : Z) | Uncaught (e : exn).

(** The exit status the caller of the process sees: the interpreter ends
    with status 1 on an uncaught exception. *)
Definition exit_status (e : ending) : Z :=
  match e with
  | Exit code => code
  | Uncaught _ => 1%Z
  end.

(** [main], given what the one call of [fetch] does.  The result is the lines
    written to standard output and the way the process ends; the [--debug]
    diagnostics go to standard error and change neither. *)
Definition main `{Unicode} (reply : exn + str) : list str * ending :=
  match reply with
  | inl e =>
      (* except (urllib.error.URLError, urllib.error.HTTPError) *)
      if is_URLError e || is_HTTPError e then ([UNKNOWN], Exit 4)
      else ([], Uncaught e)
  | inr html =>
      let '(first, items) := parse_info_status html in
      let status := normalize_status first in
      ([status],
       if str_eqb status ON then Exit 0
       else if str_eqb status OFF then Exit 2
       else if str_eqb status COOLING then Exit 3
       else Exit 4)
  end.

End Query.

(** ** Vocabulary of the statements *)

(** Case folding of the ASCII letters, and equality of two texts up to it:
    the sense in which a raw token equals a vendor token
    case-insensitively. *)
Definition fold_case (c : char) : char :=
  if (97 <=? c) && (c <=? 122) then c - 32 else c.

Definition equal_ignoring_case (a b : str) : bool :=
  str_eqb (map fold_case a) (map fold_case b).

(** The vendor tokens the specification lists for ON. *)
Definition on_tokens : list str :=
  [lit "ON"; lit "STARTUP"; lit "STARTUP1"; lit "STARTUP2"; lit "POWER ON"].

(** The canonical states. *)
Definition canonical : list str := [ON; OFF; COOLING; UNKNOWN].

(** The declaration of the extraction property. *)
Definition declaration : str :=
  lit "var info_status_value = ['STARTUP2','ignored'];".

(** No match of the pattern [m] starts inside [pre] when [rest] follows. *)
Fixpoint no_match_starts {A : Type} (m : str -> option A) (pre rest : str)
    : bool :=
  match pre with
  | [] => true
  | _ :: pre' =>
      match m (pre ++ rest) with
      | Some _ => false
      | None => no_match_starts m pre' rest
      end
  end.

(** A database in which no code point beyond ASCII has an upper-case
    mapping; it instantiates the statements on concrete inputs. *)
Definition ascii_only : Unicode := {| upper_beyond_ascii := fun c => [c] |}.

(** A device that answers every status GET at once with the same page,
    accepts every toggle at once and never oversleeps; standard output has
    every character, as with UTF-8. *)
Definition steady (page : str) : device :=
  {| boot := 0; status_page := fun _ => inr page; status_delay := fun _ => 0;
     toggle_reply := fun _ => None; toggle_delay := fun _ => 0;
     oversleep := fun _ => 0;
     encodable := fun _ => true |}.

(** The status page of the device with [token] as its status. *)
Definition page_of (token : string) : str :=
  lit "<html><script>var info_status_value = ['" ++ lit token ++
  lit "'];</script></html>".

(** A page with two declarations, the one of the extraction property
    second. *)
Definition two_declarations : str :=
  lit "<script>var info_status_value = ['OFF'];</script>" ++ [10] ++
  declaration.

(** A page with the declaration of the extraction property inside HTML and
    broken over several lines. *)
Definition broken_lines : str :=
  lit "<html>" ++ [13; 10] ++ lit "<script>" ++ [10] ++
  lit "var info_status_value = [" ++ [13; 10] ++ lit "'START" ++ [10] ++
  lit "UP2'," ++ [10] ++ lit "'ignored'];" ++ [10] ++
  lit "</script></html>".

(** Every [time.sleep] in a list of events lasts [d]. *)
Definition sleeps_are (d : Z) (es : list event) : Prop :=
  Forall (fun e => match e with Sleep d' => d' = d | _ => True end) es.

(** What [get_status] prints on its k-th call: the warning of a failed
    fetch, or nothing. *)
Definition warning (d : device) (k : nat) : list event :=
  match status_page d k with
  | inl e => [Stdout (FetchFailed e)]
  | inr _ => []
  end.

(** A device whose status page holds no status declaration. *)
Definition undeclared : device := steady (lit "<html></html>").

(** The page as the extractors search it: carriage returns and line feeds
    removed. *)
Definition one_line (html : str) : str :=
  remove_char 10 (remove_char 13 html).

(** [p] at the head of [s], and somewhere in [s], each character compared
    as a pattern compiled with [re.IGNORECASE] compares it. *)
Fixpoint istarts_with (p s : str) : bool :=
  match p, s with
  | [], _ => true
  | x :: p', y :: s' => ichar_matches x y && istarts_with p' s'
  | _ :: _, [] => false
  end.

Fixpoint icontains (p s : str) : bool :=
  istarts_with p s ||
  match s with
  | [] => false
  | _ :: s' => icontains p s'
  end.

(** A text without the character [c]. *)
Definition free_of (c : char) (s : str) : bool :=
  forallb (fun x => negb (x =? c)) s.

(** The opening of a status declaration, up to its bracket: the keyword,
    white space, the name, optional white space around the equals sign. *)
Definition declaration_head (kw ws1 name ws2 ws3 : str) : str :=
  kw ++ ws1 ++ name ++ ws2 ++ lit "=" ++ ws3 ++ lit "[".

(** Its parts are what they should be: the keyword and the name in any
    case, white space where the pattern asks for it. *)
Definition well_formed_head (kw ws1 name ws2 ws3 : str) : bool :=
  equal_ignoring_case kw (lit "var") &&
  equal_ignoring_case name (lit "info_status_value") &&
  match ws1 with [] => false | _ :: _ => true end &&
  forallb isspace ws1 && forallb isspace ws2 && forallb isspace ws3.

(** The loop of on.py and of off.py, with what the two copies differ in as
    parameters: the status reader, the interval, the deadline and the
    target state. *)
Fixpoint poll_until (get : device -> state -> str * state)
    (interval max_wait : Z) (target : str) (d : device) (fuel : nat)
    (st : state) : option (Z * state) :=
  if (now st - start st <? max_wait)%Z then
    match fuel with
    | O => None
    | S fuel' =>
        let st := sleep d interval st in
        let '(status, st) := get d st in
        let st := say (PollStatus status) st in
        if str_eqb status target then say_and_exit d Reached 0 st
        else poll_until get interval max_wait target d fuel' st
    end
  else say_and_exit d TimedOut 1 st.

(** What a status reader does to the process: one GET of the status page,
    which takes its time, and the warning of a failed fetch; its result is
    the reading [rd] of the device at that GET. *)
Definition reads_status (get : device -> state -> str * state)
    (rd : device -> nat -> str) : Prop :=
  forall (d : device) (st : state),
    fst (get d st) = rd d (fetches st) /\
    events (snd (get d st)) = events st ++ GetStatus :: warning d (fetches st) /\
    now (snd (get d st)) = (now st + Z.of_N (status_delay d (fetches st)))%Z /\
    fetches (snd (get d st)) = S (fetches st) /\
    toggles (snd (get d st)) = toggles st /\
    naps (snd (get d st)) = naps st /\
    start (snd (get d st)) = start st.

(** A device that answers at once and on which no sleep overruns, as a
    simulated status source is. *)
Definition instant (d : device) : Prop :=
  forall k : nat,
    status_delay d k = 0 /\ toggle_delay d k = 0 /\ oversleep d k = 0.

(** The sleeps in a list of events. *)
Definition sleep_count (es : list event) : nat :=
  List.length (filter (fun e => match e with Sleep _ => true | _ => false end) es).

(** A device that answers at once, with the page of the k-th status GET
    taken from a list and the last page repeated after it; standard output
    has every character. *)
Definition scripted (pages : list str) : device :=
  {| boot := 0;
     status_page := fun k => inr (nth k pages (last pages []));
     status_delay := fun _ => 0;
     toggle_reply := fun _ => None; toggle_delay := fun _ => 0;
     oversleep := fun _ => 0;
     encodable := fun _ => true |}.

(** The same device for a process whose standard output is ASCII (as under
    PYTHONIOENCODING=ascii); cp1252 lacks the same signs. *)
Definition ascii_stdout (d : device) : device :=
  {| boot := boot d; status_page := status_page d;
     status_delay := status_delay d; toggle_reply := toggle_reply d;
     toggle_delay := toggle_delay d; oversleep := oversleep d;
     encodable := fun c => c <? 128 |}.

(** The process of on.py after its first status read, and when it enters
    its loop (which it does unless that read gave ON). *)
Definition On_first_read `{Unicode} (d : device) : state :=
  say (CurrentStatus (On.reading d 0))
    (snd (On.get_status d (say Checking (initial d)))).

Definition On_entry `{Unicode} (d : device) : state :=
  set_start (toggle_power d (say Sending (On_first_read d))).

(** The same for off.py, which enters its loop unless that read gave OFF. *)
Definition Off_first_read `{Unicode} (d : device) : state :=
  say (CurrentStatus (Off.reading d 0))
    (snd (Off.get_status d (say Checking (initial d)))).

Definition Off_entry `{Unicode} (d : device) : state :=
  let st :=
    if str_eqb (Off.reading d 0) COOLING
    then say Cooling (Off_first_read d) else Off_first_read d in
  set_start
    (if str_eqb (Off.reading d 0) ON
     then toggle_power d (say Sending st) else st).

(** The line [toggle_power] prints on its k-th call. *)
Definition toggle_line (d : device) (k : nat) : line :=
  match toggle_reply d k with
  | None => ToggleSent
  | Some e => ToggleFailed e
  end.

(** ** The decoding at the end of [fetch]

    The body of a response is a sequence of bytes, each a number from 0 to
    255.  [fetch] decodes it as UTF-8 and, when that raises
    [UnicodeDecodeError], as latin-1. *)

Definition bytes := list N.

(** A continuation byte of UTF-8. *)
Definition continuation (b : N) : bool := (128 <=? b) && (b <=? 191).

(** [raw.decode("utf-8")]: [None] stands for [UnicodeDecodeError].  The
    decoder is strict: the lead byte fixes the length of a sequence, and
    overlong forms, surrogates and code points beyond U+10FFFF are
    errors. *)
Fixpoint utf8_decode (bs : bytes) : option str :=
  match bs with
  | [] => Some []
  | b0 :: r0 =>
      if b0 <? 128 then option_map (cons b0) (utf8_decode r0)
      else if (194 <=? b0) && (b0 <=? 223) then
        match r0 with
        | b1 :: r1 =>
            if continuation b1
            then option_map (cons ((b0 - 192) * 64 + (b1 - 128)))
                   (utf8_decode r1)
            else None
        | _ => None
        end
      else if (224 <=? b0) && (b0 <=? 239) then
        match r0 with
        | b1 :: b2 :: r2 =>
            if continuation b1 && continuation b2 &&
               (if b0 =? 224 then 160 <=? b1 else true) &&
               (if b0 =? 237 then b1 <=? 159 else true)
            then option_map
                   (cons ((b0 - 224) * 4096 + (b1 - 128) * 64 + (b2 - 128)))
                   (utf8_decode r2)
            else None
        | _ => None
        end
      else if (240 <=? b0) && (b0 <=? 244) then
        match r0 with
        | b1 :: b2 :: b3 :: r3 =>
            if continuation b1 && continuation b2 && continuation b3 &&
               (if b0 =? 240 then 144 <=? b1 else true) &&
               (if b0 =? 244 then b1 <=? 143 else true)
            then option_map
                   (cons ((b0 - 240) * 262144 + (b1 - 128) * 4096 +
                          (b2 - 128) * 64 + (b3 - 128)))
                   (utf8_decode r3)
            else None
        | _ => None
        end
      else None
  end.

(** [raw.decode("latin-1", errors="replace")]: every byte is the code point
    of the same number, so there is nothing to replace and no error. *)
Definition latin1_decode (bs : bytes) : str := bs.

(** The [try] ... [except UnicodeDecodeError] that ends [fetch]. *)
Definition fetch_decode (raw : bytes) : str :=
  match utf8_decode raw with
  | Some text => text
  | None => latin1_decode raw
  end.

(** Bytes that are all ASCII. *)
Definition ascii_bytes (m : bytes) : bool := forallb (fun b => b <? 128) m.

(** * Properties *)

(** ** Text *)

Lemma str_eqb_eq (a b : str) : str_eqb a b = true <-> a = b.
Proof.
  revert b; induction a as [|x a IH]; intros [|y b]; simpl;
    try (split; [discriminate | congruence]); try tauto.
  rewrite andb_true_iff, N.eqb_eq, IH.
  split; [intros [-> ->]; reflexivity | intros E; inversion E; auto].
Qed.

Lemma str_eqb_refl (a : str) : str_eqb a a = true.
Proof. apply str_eqb_eq; reflexivity. Qed.

Lemma in_tuple_In (x : str) (ts : list str) :
  in_tuple x ts = true <-> In x ts.
Proof.
  unfold in_tuple; rewrite existsb_exists; split.
  - intros (t & Ht & E); apply str_eqb_eq in E; subst; exact Ht.
  - intros Hx; exists x; split; [exact Hx | apply str_eqb_refl].
Qed.

Lemma in_tuple_false (x : str) (ts : list str) :
  ~ In x ts -> in_tuple x ts = false.
Proof.
  intros Hx; destruct (in_tuple x ts) eqn:E; [|reflexivity].
  apply in_tuple_In in E; contradiction.
Qed.

(** The upper-case mapping of a text is fixed by its ASCII case folding
    whenever the folded text is ASCII. *)
Lemma upper_of_folded `{Unicode} (t T : str) :
  map fold_case t = T -> Forall (fun c => c < 128) T -> upper t = T.
Proof.
  revert T; induction t as [|c t IH]; intros T E HT; subst T; [reflexivity|].
  simpl in *; inversion HT as [|? ? Hc Ht]; subst.
  rewrite (IH _ eq_refl Ht); clear IH HT Ht.
  unfold upper_char, fold_case in *.
  destruct ((97 <=? c) && (c <=? 122)); [reflexivity|].
  apply N.ltb_lt in Hc; rewrite Hc; reflexivity.
Qed.

(** A raw token that equals a vendor token of ASCII capitals and digits up
    to case is that token once trimmed and upper-cased. *)
Lemma upper_of_equal_ignoring_case `{Unicode} (s T : str) :
  equal_ignoring_case s T = true ->
  map fold_case T = T -> Forall (fun c => c < 128) T ->
  upper s = T.
Proof.
  unfold equal_ignoring_case; intros E HT Hascii.
  apply str_eqb_eq in E; rewrite HT in E.
  apply upper_of_folded; assumption.
Qed.

Lemma on_tokens_plain (T : str) :
  In T on_tokens -> map fold_case T = T /\ Forall (fun c => c < 128) T.
Proof.
  intros HT; repeat (destruct HT as [<- | HT]; [split; [reflexivity|] |]);
    try contradiction;
    repeat constructor.
Qed.

(** ** The status normalizer *)

(** In off.py and query.py every raw token that equals one of ON, STARTUP,
    STARTUP1, STARTUP2, POWER ON up to case, once trimmed, is normalized to
    ON. *)
Lemma Off_normalize_on_tokens `{Unicode} (s T : str) :
  In T on_tokens -> equal_ignoring_case (strip s) T = true ->
  Off.normalize_status (Some s) = ON.
Proof.
  intros HT E; destruct (on_tokens_plain T HT) as [Hf Ha].
  unfold Off.normalize_status.
  rewrite (upper_of_equal_ignoring_case _ _ E Hf Ha).
  replace (in_tuple T _) with true; [reflexivity|].
  symmetry; apply in_tuple_In; exact HT.
Qed.

Lemma Query_normalize_on_tokens `{Unicode} (s T : str) :
  In T on_tokens -> equal_ignoring_case (strip s) T = true ->
  Query.normalize_status (Some s) = ON.
Proof.
  intros HT E; destruct (on_tokens_plain T HT) as [Hf Ha].
  unfold Query.normalize_status.
  rewrite (upper_of_equal_ignoring_case _ _ E Hf Ha).
  replace (in_tuple T _) with true; [reflexivity|].
  symmetry; apply in_tuple_In; exact HT.
Qed.

(** on.py does the same for the four tokens its tuple lists. *)
Lemma On_normalize_on_tokens `{Unicode} (s T : str) :
  In T [lit "ON"; lit "STARTUP"; lit "STARTUP1"; lit "STARTUP2"] ->
  equal_ignoring_case (strip s) T = true ->
  On.normalize_status (Some s) = ON.
Proof.
  intros HT E.
  assert (HT' : In T on_tokens) by (simpl in *; tauto).
  destruct (on_tokens_plain T HT') as [Hf Ha].
  unfold On.normalize_status.
  rewrite (upper_of_equal_ignoring_case _ _ E Hf Ha).
  replace (in_tuple T _) with true; [reflexivity|].
  symmetry; apply in_tuple_In; exact HT.
Qed.

(** C1, at the input where it fails: the raw token POWER ON is one of the
    five vendor tokens for ON, and the normalizers of off.py and query.py
    return ON on it, but the normalizer of on.py, whose tuple omits it,
    returns UNKNOWN. *)
Theorem On_normalize_status_misses_power_on (U : Unicode) :
  In (lit "POWER ON") on_tokens /\
  equal_ignoring_case (strip (lit "POWER ON")) (lit "POWER ON") = true /\
  Off.normalize_status (Some (lit "POWER ON")) = ON /\
  Query.normalize_status (Some (lit "POWER ON")) = ON /\
  On.normalize_status (Some (lit "POWER ON")) = UNKNOWN.
Proof.
  split; [simpl; tauto|].
  repeat split; vm_compute; reflexivity.
Qed.

Lemma Query_normalize_canonical `{Unicode} :
  Forall (fun t => Query.normalize_status (Some t) = t) canonical.
Proof. repeat constructor. Qed.

Lemma Query_normalize_in_canonical `{Unicode} (s : option str) :
  In (Query.normalize_status s) canonical.
Proof.
  destruct s as [s|]; unfold Query.normalize_status, canonical.
  - destruct (in_tuple _ _); [simpl; tauto|].
    destruct (in_tuple _ _); [simpl; tauto|].
    destruct (_ || _); simpl; tauto.
  - simpl; tauto.
Qed.

(** C6: the normalizer of query.py is total onto the four canonical states:
    on every input, the absent token included, it returns one of ON, OFF,
    COOLING, UNKNOWN; and it is idempotent: normalizing its own result
    changes nothing, each canonical state being normalized to itself. *)
Theorem Query_normalize_status_total_idempotent (U : Unicode) :
  (forall s : option str, In (Query.normalize_status s) canonical) /\
  (forall s : option str,
     Query.normalize_status (Some (Query.normalize_status s)) =
     Query.normalize_status s) /\
  Forall (fun t => Query.normalize_status (Some t) = t) canonical.
Proof.
  split; [exact Query_normalize_in_canonical|].
  split; [|exact Query_normalize_canonical].
  intros s.
  pose proof Query_normalize_canonical as Hc.
  rewrite Forall_forall in Hc.
  apply Hc, Query_normalize_in_canonical.
Qed.

(** A text that contains COOL or WARM is none of the tokens the normalizers
    test for equality before they look for the two substrings. *)
Lemma cool_warm_not_listed (up : str) :
  contains (lit "COOL") up || contains (lit "WARM") up = true ->
  ~ In up (on_tokens ++ [lit "OFF"; lit "STANDBY"]).
Proof.
  intros Hc Hin.
  repeat (destruct Hin as [<- | Hin]; [discriminate Hc|]).
  exact Hin.
Qed.

(** C8: every raw token whose trimmed, upper-cased form contains COOL or
    contains WARM is normalized to COOLING, by each of the three scripts. *)
Theorem normalize_status_cooling (U : Unicode) (s : str) :
  contains (lit "COOL") (upper (strip s)) = true \/
  contains (lit "WARM") (upper (strip s)) = true ->
  Query.normalize_status (Some s) = COOLING /\
  Off.normalize_status (Some s) = COOLING /\
  On.normalize_status (Some s) = COOLING.
Proof.
  intros Hc.
  assert (Hb : contains (lit "COOL") (upper (strip s)) ||
               contains (lit "WARM") (upper (strip s)) = true)
    by (apply orb_true_iff; exact Hc).
  pose proof (cool_warm_not_listed _ Hb) as Hn.
  unfold Query.normalize_status, Off.normalize_status, On.normalize_status.
  rewrite Hb.
  rewrite !in_tuple_false; [auto | | |];
    intros Hin; apply Hn; simpl in *; tauto.
Qed.

Lemma normalize_status_cooling_witness :
  (contains (lit "COOL") (@upper ascii_only (strip (lit " Cooling2 "))) = true \/
   contains (lit "WARM") (@upper ascii_only (strip (lit " Cooling2 "))) = true) /\
  @Query.normalize_status ascii_only (Some (lit " Cooling2 ")) = COOLING /\
  @Off.normalize_status ascii_only (Some (lit " Cooling2 ")) = COOLING /\
  @On.normalize_status ascii_only (Some (lit " Cooling2 ")) = COOLING.
Proof.
  assert (H : contains (lit "COOL")
                (@upper ascii_only (strip (lit " Cooling2 "))) = true \/
              contains (lit "WARM")
                (@upper ascii_only (strip (lit " Cooling2 "))) = true)
    by (left; vm_compute; reflexivity).
  split; [exact H|].
  exact (normalize_status_cooling ascii_only (lit " Cooling2 ") H).
Defined.

(** C10: the normalizers of off.py and query.py agree on every input, a
    text or the absent token. *)
Theorem Off_Query_normalize_status_agree (U : Unicode) (s : option str) :
  Off.normalize_status s = Query.normalize_status s.
Proof.
  destruct s as [s|]; [|reflexivity].
  unfold Off.normalize_status, Query.normalize_status.
  destruct (in_tuple _ _); reflexivity.
Qed.

(** ** The status extractor *)

Lemma star_group_shrinks {A : Type} (cls : char -> bool)
    (k : str -> str -> option A) (s : str) :
  forall (acc : str) (r : A),
  star_group cls k acc s = Some r ->
  exists acc' s', k acc' s' = Some r /\ (List.length s' <= List.length s)%nat.
Proof.
  induction s as [|c s IH]; intros acc r Hr; simpl in Hr.
  - exists acc, []; split; [exact Hr | reflexivity].
  - destruct (cls c).
    + destruct (star_group cls k (acc ++ [c]) s) as [r'|] eqn:E.
      * destruct (IH _ _ E) as (acc' & s' & Hk & Hl).
        exists acc', s'; split; [congruence | simpl; lia].
      * exists acc, (c :: s); split; [exact Hr | reflexivity].
    + exists acc, (c :: s); split; [exact Hr | reflexivity].
Qed.

(** A match of the item pattern consumes at least its two quotes. *)
Lemma QUOTED_ITEM_RE_shrinks (s g rest : str) :
  On.QUOTED_ITEM_RE s = Some (g, rest) ->
  (List.length rest < List.length s)%nat.
Proof.
  unfold On.QUOTED_ITEM_RE.
  destruct s as [|c s]; [discriminate|]; simpl.
  destruct (c =? 39); [|discriminate].
  intros Hm; apply star_group_shrinks in Hm.
  destruct Hm as (acc' & [|c' s'] & Hk & Hl); [discriminate|]; simpl in Hk.
  destruct (c' =? 39); [|discriminate].
  injection Hk as _ <-; simpl in Hl; lia.
Qed.

(** The bound of [findall] is never reached: any larger bound gives the same
    items. *)
Lemma findall_from_enough (m : str -> option (str * str)) :
  (forall s g rest, m s = Some (g, rest) ->
     (List.length rest < List.length s)%nat) ->
  forall (n n' : nat) (s : str),
  (List.length s < n)%nat -> (List.length s < n')%nat ->
  findall_from n m s = findall_from n' m s.
Proof.
  intros Hm; induction n as [|n IH]; intros [|n'] s Hn Hn'; try lia.
  simpl; destruct (m s) as [[g rest]|] eqn:E.
  - apply Hm in E; f_equal; apply IH; lia.
  - destruct s as [|c s]; [reflexivity|]; simpl in *; apply IH; lia.
Qed.

Lemma findall_QUOTED_ITEM_RE_bound (n : nat) (s : str) :
  (List.length s < n)%nat ->
  findall_from n On.QUOTED_ITEM_RE s = findall On.QUOTED_ITEM_RE s.
Proof.
  intros Hn; unfold findall.
  apply (findall_from_enough _ QUOTED_ITEM_RE_shrinks); lia.
Qed.

Lemma search_after_no_match {A : Type} (m : str -> option A)
    (pre rest : str) :
  no_match_starts m pre rest = true ->
  search m (pre ++ rest) = search m rest.
Proof.
  induction pre as [|c pre IH]; intros Hn; [reflexivity|].
  simpl in Hn |- *.
  destruct (m (c :: pre ++ rest)) eqn:E; [discriminate|].
  apply IH; exact Hn.
Qed.

(** The pattern matches at the declaration, whatever follows it, and its
    group is the text between the brackets. *)
Lemma STATUS_RE_at_declaration (post : str) :
  On.STATUS_RE (declaration ++ post) = Some (lit "'STARTUP2','ignored'").
Proof. reflexivity. Qed.

Lemma findall_declared_items :
  findall On.QUOTED_ITEM_RE (lit "'STARTUP2','ignored'") =
  [lit "STARTUP2"; lit "ignored"].
Proof. reflexivity. Qed.

(** C7, as amended: for every text which, once its carriage returns and
    line feeds are removed, is the declaration
    var info_status_value = ['STARTUP2','ignored'];  between a prefix in
    which no match of the status pattern starts and an arbitrary rest, the
    extractors of on.py and off.py return the token STARTUP2, the first
    quoted literal of the array, and that token is normalized to ON. *)
Theorem parse_info_status_first_declaration (U : Unicode)
    (html pre post : str) :
  remove_char 10 (remove_char 13 html) = pre ++ declaration ++ post ->
  no_match_starts On.STATUS_RE pre (declaration ++ post) = true ->
  On.parse_info_status html = Some (lit "STARTUP2") /\
  Off.parse_info_status html = Some (lit "STARTUP2") /\
  On.normalize_status (On.parse_info_status html) = ON /\
  Off.normalize_status (Off.parse_info_status html) = ON.
Proof.
  intros Hc Hn.
  assert (Hon : On.parse_info_status html = Some (lit "STARTUP2")).
  { unfold On.parse_info_status.
    rewrite Hc, (search_after_no_match _ _ _ Hn).
    reflexivity. }
  assert (Hoff : Off.parse_info_status html = Some (lit "STARTUP2")).
  { unfold Off.parse_info_status.
    change Off.STATUS_RE with On.STATUS_RE.
    rewrite Hc, (search_after_no_match _ _ _ Hn).
    reflexivity. }
  rewrite Hon, Hoff.
  repeat split; vm_compute; reflexivity.
Qed.

Lemma parse_info_status_first_declaration_witness :
  remove_char 10 (remove_char 13 broken_lines) =
    lit "<html><script>" ++ declaration ++ lit "</script></html>" /\
  @On.normalize_status ascii_only (On.parse_info_status broken_lines) = ON /\
  On.parse_info_status broken_lines = Some (lit "STARTUP2").
Proof.
  assert (Hc : remove_char 10 (remove_char 13 broken_lines) =
               lit "<html><script>" ++ declaration ++ lit "</script></html>")
    by reflexivity.
  split; [exact Hc|].
  pose proof (parse_info_status_first_declaration ascii_only broken_lines
                (lit "<html><script>") (lit "</script></html>") Hc eq_refl)
    as (Hon & _ & Hn & _).
  split; [exact Hn | exact Hon].
Defined.

(** C7 as stated fails: in a page that holds an earlier declaration, the
    extractors return the first token of that one. *)
Lemma parse_info_status_earlier_declaration :
  remove_char 10 (remove_char 13 two_declarations) =
    lit "<script>var info_status_value = ['OFF'];</script>" ++
    declaration ++ [] /\
  On.parse_info_status two_declarations = Some (lit "OFF") /\
  Off.parse_info_status two_declarations = Some (lit "OFF") /\
  On.parse_info_status two_declarations <> Some (lit "STARTUP2").
Proof. repeat split; vm_compute; [reflexivity .. | discriminate]. Qed.

(** ** The status query *)

(** On every page the exit code of query.py follows the normalized status,
    which is also the one line it prints; a fetch that raises [URLError] or
    [HTTPError] prints UNKNOWN and exits with 4. *)
Lemma Query_main_exit_codes `{Unicode} :
  (forall html : str,
     let status := Query.normalize_status (fst (Query.parse_info_status html)) in
     fst (Query.main (inr html)) = [status] /\
     snd (Query.main (inr html)) =
       Query.Exit (if str_eqb status ON then 0
                   else if str_eqb status OFF then 2
                   else if str_eqb status COOLING then 3
                   else 4)%Z) /\
  Query.main (inl URLError) = ([UNKNOWN], Query.Exit 4) /\
  Query.main (inl HTTPError) = ([UNKNOWN], Query.Exit 4).
Proof.
  split; [|split; reflexivity].
  intros html status; subst status; unfold Query.main.
  destruct (Query.parse_info_status html) as [first items]; simpl.
  split; [reflexivity|].
  repeat match goal with |- context [if ?b then _ else _] => destruct b end;
    reflexivity.
Qed.

(** C9, at the input where it fails: a fetch that ends in a timeout while
    the response is read raises [TimeoutError], which is no [URLError];
    query.py does not catch it, prints nothing and ends with the status 1 of
    an uncaught exception instead of 4. *)
Theorem Query_main_uncaught_timeout (U : Unicode) :
  Query.main (inl TimeoutError) = ([], Query.Uncaught TimeoutError) /\
  Query.exit_status (snd (Query.main (inl TimeoutError))) = 1%Z /\
  Query.exit_status (snd (Query.main (inl TimeoutError))) <> 4%Z.
Proof. repeat split; simpl; discriminate. Qed.

(** ** Sessions: facts shared by on.py and off.py *)

Lemma toggle_count_app (a b : list event) :
  toggle_count (a ++ b) = (toggle_count a + toggle_count b)%nat.
Proof. unfold toggle_count; rewrite filter_app, length_app; reflexivity. Qed.

Lemma sleeps_are_app (d : Z) (a b : list event) :
  sleeps_are d a -> sleeps_are d b -> sleeps_are d (a ++ b).
Proof. unfold sleeps_are; intros; apply Forall_app; auto. Qed.

Lemma warning_quiet (d : device) (k : nat) (iv : Z) :
  toggle_count (warning d k) = 0%nat /\ status_count (warning d k) = 0%nat /\
  sleeps_are iv (warning d k).
Proof.
  unfold warning; destruct (status_page d k); repeat split;
    repeat constructor.
Qed.

(** ** on.py: the session *)

Lemma On_get_status_spec `{Unicode} (d : device) (st : state) :
  fst (On.get_status d st) = On.reading d (fetches st) /\
  events (snd (On.get_status d st)) =
    events st ++ GetStatus :: warning d (fetches st) /\
  start (snd (On.get_status d st)) = start st /\
  (now st <= now (snd (On.get_status d st)))%Z /\
  now (snd (On.get_status d st)) =
    (now st + Z.of_N (status_delay d (fetches st)))%Z /\
  fetches (snd (On.get_status d st)) = S (fetches st) /\
  toggles (snd (On.get_status d st)) = toggles st.
Proof.
  unfold On.get_status, On.reading, warning, fetch.
  destruct (status_page d (fetches st)) as [e|html]; simpl;
    rewrite <- ?app_assoc; simpl; repeat split; lia.
Qed.

(** A run that times out ends with status 1 whether its last line is
    written or not. *)
Lemma say_and_exit_timed_out (d : device) (st : state) :
  say_and_exit d TimedOut 1 st = Some (1%Z, say TimedOut st).
Proof.
  unfold say_and_exit; destruct (prints d TimedOut); reflexivity.
Qed.

(** A line without a sign is written, whatever standard output is. *)
Lemma prints_plain (d : device) (l : line) :
  symbols l = [] -> prints d l = true.
Proof.
  unfold prints; intros ->; reflexivity.
Qed.

(** The two lines of success are written exactly when standard output takes
    U+2705. *)
Lemma prints_check_mark (d : device) (l : line) :
  l = Already \/ l = Reached -> prints d l = encodable d 9989.
Proof.
  intros [-> | ->]; unfold prints; cbn [symbols forallb]; apply andb_true_r.
Qed.

(** The status of a run that ends on a line and exit code 0 is 0 or 1. *)
Lemma exit_zero_or_one (d : device) (l : line) :
  (if prints d l then 0%Z else 1%Z) = 0%Z \/
  (if prints d l then 0%Z else 1%Z) = 1%Z.
Proof.
  destruct (prints d l); [left | right]; reflexivity.
Qed.

(** The loop of on.py, started with enough fuel for the time that is left,
    ends; it sends no toggle; it sleeps 3 at a time; it ends on the
    time-out line with status 1, once 90 have passed since [start], or on a
    reading of ON, with status 0 if the line of that end is written. *)
Lemma On_poll_spec `{Unicode} (d : device) (fuel : nat) :
  forall st : state,
  (On.MAX_WAIT - (now st - start st) <= Z.of_nat fuel * On.POLL_INTERVAL)%Z ->
  exists (c : Z) (st' : state) (loop : list event),
    On.poll d fuel st = Some (c, st') /\
    events st' = events st ++ loop /\
    toggle_count loop = 0%nat /\
    sleeps_are On.POLL_INTERVAL loop /\
    start st' = start st /\
    toggles st' = toggles st /\
    ((c = 1%Z /\ (On.MAX_WAIT <= now st' - start st')%Z /\
      exists l, loop = l ++ [Stdout TimedOut]) \/
     (c = (if prints d Reached then 0 else 1)%Z /\
      (exists k, On.reading d k = ON) /\
      exists l, loop = l ++ [Stdout Reached])) /\
    ((now st - start st < On.MAX_WAIT)%Z ->
     exists l, loop = Sleep On.POLL_INTERVAL :: GetStatus :: l).
Proof.
  induction fuel as [|fuel IH]; intros st Hf; cbn [On.poll];
    destruct (now st - start st <? On.MAX_WAIT)%Z eqn:E;
    try (apply Z.ltb_lt in E); try (apply Z.ltb_ge in E).
  - unfold On.POLL_INTERVAL in Hf; lia.
  - exists 1%Z, (say TimedOut st), [Stdout TimedOut].
    split; [apply say_and_exit_timed_out|].
    split; [reflexivity|].
    split; [reflexivity|].
    split; [repeat constructor|].
    split; [reflexivity|].
    split; [reflexivity|].
    split; [|intros; lia].
    left; split; [reflexivity|].
    split; [exact E | exists []; reflexivity].
  - destruct (On_get_status_spec d (sleep d On.POLL_INTERVAL st))
      as (Hs & He & Hst & Hn & _ & _ & Ht).
    destruct (On.get_status d (sleep d On.POLL_INTERVAL st)) as [status st2].
    simpl in Hs, He, Hst, Hn, Ht.
    destruct (warning_quiet d (fetches st) On.POLL_INTERVAL) as (Wt & _ & Ws).
    destruct (str_eqb status ON) eqn:Eon.
    + apply str_eqb_eq in Eon.
      exists (if prints d Reached then 0 else 1)%Z,
        (say Reached (say (PollStatus status) st2)),
        (Sleep On.POLL_INTERVAL :: GetStatus :: warning d (fetches st) ++
         [Stdout (PollStatus status); Stdout Reached]).
      split; [reflexivity|].
      split; [simpl; rewrite He, <- !app_assoc; reflexivity|].
      split; [change (toggle_count (warning d (fetches st) ++
                [Stdout (PollStatus status); Stdout Reached]) = 0%nat);
              rewrite toggle_count_app, Wt; reflexivity|].
      split; [repeat constructor;
              apply sleeps_are_app; [exact Ws | repeat constructor]|].
      split; [exact Hst|].
      split; [exact Ht|].
      split; [|intros _; eexists; reflexivity].
      right; split; [reflexivity|].
      split; [exists (fetches st); congruence|].
      exists (Sleep On.POLL_INTERVAL :: GetStatus :: warning d (fetches st) ++
              [Stdout (PollStatus status)]).
      simpl; rewrite <- app_assoc; reflexivity.
    + destruct (IH (say (PollStatus status) st2))
        as (c & st' & loop & Hp & Hev & Htc & Hsl & Hstart & Htog & Hend & _).
      { unfold say, emit; cbn [now start]; rewrite Hst.
        unfold On.POLL_INTERVAL, On.MAX_WAIT in *; lia. }
      exists c, st',
        (Sleep On.POLL_INTERVAL :: GetStatus :: warning d (fetches st) ++
         Stdout (PollStatus status) :: loop).
      split; [exact Hp|].
      split; [rewrite Hev; simpl; rewrite He, <- !app_assoc; reflexivity|].
      split; [change (toggle_count (warning d (fetches st) ++
                Stdout (PollStatus status) :: loop) = 0%nat);
              rewrite toggle_count_app, Wt;
              change (toggle_count (Stdout (PollStatus status) :: loop))
                with (toggle_count loop); exact Htc|].
      split; [repeat constructor;
              apply sleeps_are_app; [exact Ws | constructor; [exact I | exact Hsl]]|].
      split; [rewrite Hstart; exact Hst|].
      split; [rewrite Htog; exact Ht|].
      split; [|intros _; eexists; reflexivity].
      destruct Hend as [(Hc & Hw & l & Hl) | (Hc & Hk & l & Hl)]; subst loop.
      * left; split; [exact Hc|]; split; [exact Hw|].
        exists (Sleep On.POLL_INTERVAL :: GetStatus :: warning d (fetches st) ++
                Stdout (PollStatus status) :: l).
        simpl; rewrite <- app_assoc; reflexivity.
      * right; split; [exact Hc|]; split; [exact Hk|].
        exists (Sleep On.POLL_INTERVAL :: GetStatus :: warning d (fetches st) ++
                Stdout (PollStatus status) :: l).
        simpl; rewrite <- app_assoc; reflexivity.
  - exists 1%Z, (say TimedOut st), [Stdout TimedOut].
    split; [apply say_and_exit_timed_out|].
    split; [reflexivity|].
    split; [reflexivity|].
    split; [repeat constructor|].
    split; [reflexivity|].
    split; [reflexivity|].
    split; [|intros; lia].
    left; split; [reflexivity|].
    split; [exact E | exists []; reflexivity].
Qed.

Lemma toggle_power_spec (d : device) (st : state) :
  exists l : line,
    events (toggle_power d st) = events st ++ [GetToggle; Stdout l] /\
    start (toggle_power d st) = start st /\
    now (toggle_power d st) =
      (now st + Z.of_N (toggle_delay d (toggles st)))%Z /\
    fetches (toggle_power d st) = fetches st /\
    toggles (toggle_power d st) = S (toggles st).
Proof.
  unfold toggle_power.
  destruct (toggle_reply d (toggles st)) as [e|];
    [exists (ToggleFailed e) | exists ToggleSent];
    simpl; rewrite <- app_assoc; repeat split.
Qed.

Lemma On_reading_known `{Unicode} (d : device) (k : nat) :
  On.reading d k <> UNKNOWN -> warning d k = [].
Proof.
  unfold On.reading, warning.
  destruct (status_page d k); [congruence | reflexivity].
Qed.

(** on.py always ends, with exit code 0 or 1: the fuel [main] gives its loop
    is never used up. *)
Lemma On_main_total `{Unicode} (d : device) :
  exists (c : Z) (st : state),
    On.main d = Some (c, st) /\ (c = 0%Z \/ c = 1%Z).
Proof.
  unfold On.main.
  destruct (On.get_status d (say Checking (initial d))) as [status st1].
  destruct (str_eqb status ON).
  - eexists _, _; split; [reflexivity | apply exit_zero_or_one].
  - destruct (On_poll_spec d (Z.to_nat On.MAX_WAIT)
               (set_start (toggle_power d
                  (say Sending (say (CurrentStatus status) st1)))))
      as (c & st' & loop & Hp & _ & _ & _ & _ & _ & Hend & _).
    { cbn [set_start now start]. unfold On.MAX_WAIT, On.POLL_INTERVAL; lia. }
    exists c, st'; split; [exact Hp|].
    destruct Hend as [(-> & _) | (-> & _)];
      [right; reflexivity | apply exit_zero_or_one].
Qed.



(** ** off.py: the session *)

Lemma Off_get_status_spec `{Unicode} (d : device) (st : state) :
  fst (Off.get_status d st) = Off.reading d (fetches st) /\
  events (snd (Off.get_status d st)) =
    events st ++ GetStatus :: warning d (fetches st) /\
  start (snd (Off.get_status d st)) = start st /\
  (now st <= now (snd (Off.get_status d st)))%Z /\
  now (snd (Off.get_status d st)) =
    (now st + Z.of_N (status_delay d (fetches st)))%Z /\
  fetches (snd (Off.get_status d st)) = S (fetches st) /\
  toggles (snd (Off.get_status d st)) = toggles st.
Proof.
  unfold Off.get_status, Off.reading, warning, fetch.
  destruct (status_page d (fetches st)) as [e|html]; simpl;
    rewrite <- ?app_assoc; simpl; repeat split; lia.
Qed.

(** The loop of off.py, started with enough fuel for the time that is left,
    ends; it sends no toggle; it sleeps 5 at a time; it ends on the
    time-out line with status 1, once 180 have passed since [start], or on
    a reading of OFF, with status 0 if the line of that end is written. *)
Lemma Off_poll_spec `{Unicode} (d : device) (fuel : nat) :
  forall st : state,
  (Off.MAX_WAIT - (now st - start st) <= Z.of_nat fuel * Off.POLL_INTERVAL)%Z ->
  exists (c : Z) (st' : state) (loop : list event),
    Off.poll d fuel st = Some (c, st') /\
    events st' = events st ++ loop /\
    toggle_count loop = 0%nat /\
    sleeps_are Off.POLL_INTERVAL loop /\
    start st' = start st /\
    toggles st' = toggles st /\
    ((c = 1%Z /\ (Off.MAX_WAIT <= now st' - start st')%Z /\
      exists l, loop = l ++ [Stdout TimedOut]) \/
     (c = (if prints d Reached then 0 else 1)%Z /\
      (exists k, Off.reading d k = OFF) /\
      exists l, loop = l ++ [Stdout Reached])) /\
    ((now st - start st < Off.MAX_WAIT)%Z ->
     exists l, loop = Sleep Off.POLL_INTERVAL :: GetStatus :: l).
Proof.
  induction fuel as [|fuel IH]; intros st Hf; cbn [Off.poll];
    destruct (now st - start st <? Off.MAX_WAIT)%Z eqn:E;
    try (apply Z.ltb_lt in E); try (apply Z.ltb_ge in E).
  - unfold Off.POLL_INTERVAL in Hf; lia.
  - exists 1%Z, (say TimedOut st), [Stdout TimedOut].
    split; [apply say_and_exit_timed_out|].
    split; [reflexivity|].
    split; [reflexivity|].
    split; [repeat constructor|].
    split; [reflexivity|].
    split; [reflexivity|].
    split; [|intros; lia].
    left; split; [reflexivity|].
    split; [exact E | exists []; reflexivity].
  - destruct (Off_get_status_spec d (sleep d Off.POLL_INTERVAL st))
      as (Hs & He & Hst & Hn & _ & _ & Ht).
    destruct (Off.get_status d (sleep d Off.POLL_INTERVAL st)) as [status st2].
    simpl in Hs, He, Hst, Hn, Ht.
    destruct (warning_quiet d (fetches st) Off.POLL_INTERVAL) as (Wt & _ & Ws).
    destruct (str_eqb status OFF) eqn:Eon.
    + apply str_eqb_eq in Eon.
      exists (if prints d Reached then 0 else 1)%Z,
        (say Reached (say (PollStatus status) st2)),
        (Sleep Off.POLL_INTERVAL :: GetStatus :: warning d (fetches st) ++
         [Stdout (PollStatus status); Stdout Reached]).
      split; [reflexivity|].
      split; [simpl; rewrite He, <- !app_assoc; reflexivity|].
      split; [change (toggle_count (warning d (fetches st) ++
                [Stdout (PollStatus status); Stdout Reached]) = 0%nat);
              rewrite toggle_count_app, Wt; reflexivity|].
      split; [repeat constructor;
              apply sleeps_are_app; [exact Ws | repeat constructor]|].
      split; [exact Hst|].
      split; [exact Ht|].
      split; [|intros _; eexists; reflexivity].
      right; split; [reflexivity|].
      split; [exists (fetches st); congruence|].
      exists (Sleep Off.POLL_INTERVAL :: GetStatus :: warning d (fetches st) ++
              [Stdout (PollStatus status)]).
      simpl; rewrite <- app_assoc; reflexivity.
    + destruct (IH (say (PollStatus status) st2))
        as (c & st' & loop & Hp & Hev & Htc & Hsl & Hstart & Htog & Hend & _).
      { unfold say, emit; cbn [now start]; rewrite Hst.
        unfold Off.POLL_INTERVAL, Off.MAX_WAIT in *; lia. }
      exists c, st',
        (Sleep Off.POLL_INTERVAL :: GetStatus :: warning d (fetches st) ++
         Stdout (PollStatus status) :: loop).
      split; [exact Hp|].
      split; [rewrite Hev; simpl; rewrite He, <- !app_assoc; reflexivity|].
      split; [change (toggle_count (warning d (fetches st) ++
                Stdout (PollStatus status) :: loop) = 0%nat);
              rewrite toggle_count_app, Wt;
              change (toggle_count (Stdout (PollStatus status) :: loop))
                with (toggle_count loop); exact Htc|].
      split; [repeat constructor;
              apply sleeps_are_app; [exact Ws | constructor; [exact I | exact Hsl]]|].
      split; [rewrite Hstart; exact Hst|].
      split; [rewrite Htog; exact Ht|].
      split; [|intros _; eexists; reflexivity].
      destruct Hend as [(Hc & Hw & l & Hl) | (Hc & Hk & l & Hl)]; subst loop.
      * left; split; [exact Hc|]; split; [exact Hw|].
        exists (Sleep Off.POLL_INTERVAL :: GetStatus :: warning d (fetches st) ++
                Stdout (PollStatus status) :: l).
        simpl; rewrite <- app_assoc; reflexivity.
      * right; split; [exact Hc|]; split; [exact Hk|].
        exists (Sleep Off.POLL_INTERVAL :: GetStatus :: warning d (fetches st) ++
                Stdout (PollStatus status) :: l).
        simpl; rewrite <- app_assoc; reflexivity.
  - exists 1%Z, (say TimedOut st), [Stdout TimedOut].
    split; [apply say_and_exit_timed_out|].
    split; [reflexivity|].
    split; [reflexivity|].
    split; [repeat constructor|].
    split; [reflexivity|].
    split; [reflexivity|].
    split; [|intros; lia].
    left; split; [reflexivity|].
    split; [exact E | exists []; reflexivity].
Qed.

Lemma Off_reading_known `{Unicode} (d : device) (k : nat) :
  Off.reading d k <> UNKNOWN -> warning d k = [].
Proof.
  unfold Off.reading, warning.
  destruct (status_page d k); [congruence | reflexivity].
Qed.

(** off.py always ends, with exit code 0 or 1: the fuel [main] gives its loop
    is never used up. *)
Lemma Off_main_total `{Unicode} (d : device) :
  exists (c : Z) (st : state),
    Off.main d = Some (c, st) /\ (c = 0%Z \/ c = 1%Z).
Proof.
  unfold Off.main.
  destruct (Off.get_status d (say Checking (initial d))) as [status st1].
  destruct (str_eqb status OFF).
  - eexists _, _; split; [reflexivity | apply exit_zero_or_one].
  - match goal with |- context [Off.poll d _ (set_start ?s)] =>
      destruct (Off_poll_spec d (Z.to_nat Off.MAX_WAIT) (set_start s))
        as (c & st' & loop & Hp & _ & _ & _ & _ & _ & Hend & _)
    end.
    { cbn [set_start now start]. unfold Off.MAX_WAIT, Off.POLL_INTERVAL; lia. }
    exists c, st'; split; [exact Hp|].
    destruct Hend as [(-> & _) | (-> & _)];
      [right; reflexivity | apply exit_zero_or_one].
Qed.

(** What off.py does before its loop when the first reading is not OFF, and
    that it then polls at least once. *)
Lemma Off_main_not_off `{Unicode} (d : device) :
  Off.reading d 0 <> OFF ->
  exists (c : Z) (st : state) (l : line) (loop : list event),
    Off.main d = Some (c, st) /\
    events st =
      [Stdout Checking; GetStatus] ++ warning d 0 ++
      Stdout (CurrentStatus (Off.reading d 0)) ::
      (if str_eqb (Off.reading d 0) COOLING then [Stdout Cooling] else []) ++
      (if str_eqb (Off.reading d 0) ON
       then [Stdout Sending; GetToggle; Stdout l] else []) ++
      Sleep 5 :: GetStatus :: loop /\
    toggle_count loop = 0%nat /\
    (c = 0%Z \/ c = 1%Z).
Proof.
  intros Hne.
  unfold Off.main.
  destruct (Off_get_status_spec d (say Checking (initial d)))
    as (Hs & He & _).
  destruct (Off.get_status d (say Checking (initial d))) as [status st1].
  cbn [fst snd] in Hs, He.
  cbn [say emit initial fetches events app] in Hs, He.
  rewrite <- Hs in *; clear Hs.
  destruct (str_eqb status OFF) eqn:Eoff;
    [apply str_eqb_eq in Eoff; contradiction|].
  match goal with |- context [Off.poll d _ (set_start ?s)] =>
    set (st3 := s);
    destruct (Off_poll_spec d (Z.to_nat Off.MAX_WAIT) (set_start st3))
      as (c & st' & loop & Hp & Hev & Htc & _ & _ & _ & Hend & Hfirst)
  end.
  { cbn [set_start now start]. unfold Off.MAX_WAIT, Off.POLL_INTERVAL; lia. }
  destruct Hfirst as (loop' & ->).
  { cbn [set_start now start]. unfold Off.MAX_WAIT; lia. }
  assert (Hc : c = 0%Z \/ c = 1%Z)
    by (destruct Hend as [(-> & _) | (-> & _)];
        [right; reflexivity | apply exit_zero_or_one]).
  cbn [set_start events] in Hev.
  change (toggle_count (Sleep Off.POLL_INTERVAL :: GetStatus :: loop'))
    with (toggle_count loop') in Htc.
  subst st3.
  destruct (str_eqb status ON).
  - destruct (toggle_power_spec d
                (say Sending
                   (if str_eqb status COOLING
                    then say Cooling (say (CurrentStatus status) st1)
                    else say (CurrentStatus status) st1)))
      as (l & Te & _).
    exists c, st', l, loop'.
    split; [exact Hp|].
    split; [|split; [exact Htc | exact Hc]].
    rewrite Hev, Te.
    destruct (str_eqb status COOLING); cbn [say emit events];
      rewrite He, <- !app_assoc; reflexivity.
  - exists c, st', Sending, loop'.
    split; [exact Hp|].
    split; [|split; [exact Htc | exact Hc]].
    rewrite Hev.
    destruct (str_eqb status COOLING); cbn [say emit events];
      rewrite He, <- !app_assoc; reflexivity.
Qed.

(** C5: whenever the first status read of off.py yields OFF, the run is that
    one status read between its messages: no toggle, no further status read,
    no sleep, and then the already-satisfied message and [sys.exit(0)].  The
    run reports success, exit status 0, only if standard output has the
    U+2705 that message starts with; if it does not, the print raises and
    the run ends with status 1: there the claim fails. *)
Theorem Off_main_already_off (U : Unicode) (d : device) :
  Off.reading d 0 = OFF ->
  exists st : state,
    Off.main d = Some (if encodable d 9989 then 0%Z else 1%Z, st) /\
    events st =
      [Stdout Checking; GetStatus; Stdout (CurrentStatus OFF);
       Stdout Already] /\
    toggle_count (events st) = 0%nat /\
    status_count (events st) = 1%nat /\
    toggles st = 0%nat /\
    fetches st = 1%nat.
Proof.
  intros Hoff.
  unfold Off.main.
  destruct (Off_get_status_spec d (say Checking (initial d)))
    as (Hs & He & _ & _ & _ & Hf & Ht).
  destruct (Off.get_status d (say Checking (initial d))) as [status st1].
  cbn [fst snd] in Hs, He, Hf, Ht.
  cbn [say emit initial fetches toggles events app] in Hs, He, Hf, Ht.
  rewrite Hoff in Hs; subst status.
  rewrite Off_reading_known in He by (rewrite Hoff; discriminate).
  change (str_eqb OFF OFF) with true; cbv iota.
  unfold say_and_exit; rewrite prints_check_mark by (left; reflexivity).
  eexists; split; [reflexivity|].
  cbn [say emit events fetches toggles]; rewrite He, Hf, Ht.
  repeat split.
Qed.

Lemma Off_main_already_off_witness :
  @Off.reading ascii_only (ascii_stdout (steady (page_of "standby"))) 0 = OFF /\
  exists st : state,
    @Off.main ascii_only (ascii_stdout (steady (page_of "standby"))) =
      Some (1%Z, st) /\
    toggle_count (events st) = 0%nat /\
    status_count (events st) = 1%nat.
Proof.
  assert (H : @Off.reading ascii_only
                (ascii_stdout (steady (page_of "standby"))) 0 = OFF)
    by reflexivity.
  split; [exact H|].
  destruct (Off_main_already_off ascii_only
              (ascii_stdout (steady (page_of "standby"))) H)
    as (st & Hm & _ & Ht & Hs & _).
  exists st; split; [exact Hm | split; [exact Ht | exact Hs]].
Defined.

(** C4: whenever the first status read of off.py yields COOLING, the
    session sends no toggle in its whole run, and it does not end at once:
    after the cooling message it sleeps and reads the status again. *)
Theorem Off_main_cooling_waits (U : Unicode) (d : device) :
  Off.reading d 0 = COOLING ->
  exists (c : Z) (st : state) (loop : list event),
    Off.main d = Some (c, st) /\
    events st =
      [Stdout Checking; GetStatus; Stdout (CurrentStatus COOLING);
       Stdout Cooling] ++
      Sleep 5 :: GetStatus :: loop /\
    toggle_count (events st) = 0%nat.
Proof.
  intros Hcool.
  destruct (Off_main_not_off d) as (c & st & l & loop & Hm & He & Htc & _);
    [rewrite Hcool; discriminate|].
  rewrite Off_reading_known in He by (rewrite Hcool; discriminate).
  rewrite Hcool in He.
  change (str_eqb COOLING COOLING) with true in He.
  change (str_eqb COOLING ON) with false in He.
  cbn [app] in He.
  exists c, st, loop.
  split; [exact Hm|]; split; [exact He|].
  rewrite He.
  change (toggle_count loop = 0%nat); exact Htc.
Qed.

Lemma Off_main_cooling_waits_witness :
  @Off.reading ascii_only (steady (page_of "Cooling1")) 0 = COOLING /\
  exists (c : Z) (st : state),
    @Off.main ascii_only (steady (page_of "Cooling1")) = Some (c, st) /\
    toggle_count (events st) = 0%nat.
Proof.
  assert (H : @Off.reading ascii_only (steady (page_of "Cooling1")) 0 = COOLING)
    by reflexivity.
  split; [exact H|].
  destruct (Off_main_cooling_waits ascii_only (steady (page_of "Cooling1")) H)
    as (c & st & loop & Hm & _ & Ht).
  exists c, st; split; [exact Hm | exact Ht].
Defined.




(** * Further properties *)

(** ** White space and case in the normalizers *)

Lemma isspace_bounds (c : char) : isspace c = true -> c <= 32 \/ 133 <= c.
Proof.
  unfold isspace; intros H.
  repeat rewrite ?orb_true_iff, ?andb_true_iff, ?N.leb_le, ?N.eqb_eq in H.
  lia.
Qed.

Lemma isspace_fold_case (c : char) : isspace (fold_case c) = isspace c.
Proof.
  unfold fold_case.
  destruct ((97 <=? c) && (c <=? 122)) eqn:E; [|reflexivity].
  apply andb_true_iff in E; rewrite !N.leb_le in E.
  destruct (isspace c) eqn:E1; [apply isspace_bounds in E1; lia|].
  destruct (isspace (c - 32)) eqn:E2; [apply isspace_bounds in E2; lia|].
  reflexivity.
Qed.

Lemma upper_char_fold_case `{Unicode} (c : char) :
  upper_char (fold_case c) = upper_char c.
Proof.
  unfold fold_case, upper_char.
  destruct ((97 <=? c) && (c <=? 122)) eqn:E; [|rewrite E; reflexivity].
  apply andb_true_iff in E; rewrite !N.leb_le in E.
  replace (97 <=? c - 32) with false by (symmetry; apply N.leb_gt; lia).
  replace (c - 32 <? 128) with true by (symmetry; apply N.ltb_lt; lia).
  reflexivity.
Qed.

Lemma upper_fold_case `{Unicode} (s : str) :
  upper (map fold_case s) = upper s.
Proof.
  induction s as [|c s IH]; [reflexivity|].
  simpl; rewrite upper_char_fold_case, IH; reflexivity.
Qed.

Lemma lstrip_fold_case (s : str) :
  lstrip (map fold_case s) = map fold_case (lstrip s).
Proof.
  induction s as [|c s IH]; [reflexivity|].
  simpl; rewrite isspace_fold_case; destruct (isspace c); [exact IH | reflexivity].
Qed.

Lemma strip_fold_case (s : str) :
  strip (map fold_case s) = map fold_case (strip s).
Proof.
  unfold strip, rstrip.
  rewrite lstrip_fold_case, <- map_rev, lstrip_fold_case, map_rev.
  reflexivity.
Qed.

(** The text the normalizers test depends on the raw token only up to the
    case of its ASCII letters. *)
Lemma upper_strip_ignores_case `{Unicode} (a b : str) :
  equal_ignoring_case a b = true -> upper (strip a) = upper (strip b).
Proof.
  unfold equal_ignoring_case; intros E; apply str_eqb_eq in E.
  rewrite <- (upper_fold_case (strip a)), <- (upper_fold_case (strip b)).
  rewrite <- !strip_fold_case, E; reflexivity.
Qed.

Lemma lstrip_spaces (l : str) :
  forallb isspace l = true -> lstrip l = [].
Proof.
  induction l as [|c l IH]; [reflexivity|]; simpl.
  destruct (isspace c); [exact IH | discriminate].
Qed.

Lemma lstrip_app (s r : str) :
  lstrip (s ++ r) = if forallb isspace s then lstrip r else lstrip s ++ r.
Proof.
  induction s as [|c s IH]; [reflexivity|]; simpl.
  destruct (isspace c); [exact IH | reflexivity].
Qed.

Lemma rstrip_app_spaces (s r : str) :
  forallb isspace r = true -> rstrip (s ++ r) = rstrip s.
Proof.
  intros Hr; unfold rstrip.
  rewrite rev_app_distr, lstrip_app.
  replace (forallb isspace (rev r)) with true; [reflexivity|].
  symmetry; rewrite forallb_forall in *.
  intros c Hc; apply Hr, in_rev; exact Hc.
Qed.

(** White space around a token does not reach the normalizers. *)
Lemma strip_surrounded (l s r : str) :
  forallb isspace l = true -> forallb isspace r = true ->
  strip (l ++ s ++ r) = strip s.
Proof.
  intros Hl Hr; unfold strip.
  rewrite lstrip_app, Hl, lstrip_app.
  destruct (forallb isspace s) eqn:Es.
  - rewrite (lstrip_spaces r Hr), (lstrip_spaces s Es); reflexivity.
  - apply rstrip_app_spaces; exact Hr.
Qed.

(** The three normalizers read a raw token through [upper (strip s)] only. *)
Lemma normalize_status_by_upper_strip `{Unicode} (a b : str) :
  upper (strip a) = upper (strip b) ->
  Query.normalize_status (Some a) = Query.normalize_status (Some b) /\
  Off.normalize_status (Some a) = Off.normalize_status (Some b) /\
  On.normalize_status (Some a) = On.normalize_status (Some b).
Proof.
  intros E.
  unfold Query.normalize_status, Off.normalize_status, On.normalize_status.
  rewrite E; repeat split.
Qed.

(** X1: the normalizers of the three scripts do not see the case of ASCII
    letters: two raw tokens that are equal up to it are normalized alike. *)
Theorem normalize_status_ignores_case (U : Unicode) (a b : str) :
  equal_ignoring_case a b = true ->
  Query.normalize_status (Some a) = Query.normalize_status (Some b) /\
  Off.normalize_status (Some a) = Off.normalize_status (Some b) /\
  On.normalize_status (Some a) = On.normalize_status (Some b).
Proof.
  intros E; apply normalize_status_by_upper_strip, upper_strip_ignores_case.
  exact E.
Qed.

Lemma normalize_status_ignores_case_witness :
  equal_ignoring_case (lit "Standby") (lit "sTANDBY") = true /\
  @Off.normalize_status ascii_only (Some (lit "Standby")) =
  @Off.normalize_status ascii_only (Some (lit "sTANDBY")).
Proof.
  split; [reflexivity|].
  exact (proj1 (proj2 (normalize_status_ignores_case ascii_only
                         (lit "Standby") (lit "sTANDBY") eq_refl))).
Defined.

(** X2: white space before and after a raw token, of any of the kinds
    [str.strip] removes, does not change what the three normalizers
    return. *)
Theorem normalize_status_ignores_spaces (U : Unicode) (l s r : str) :
  forallb isspace l = true -> forallb isspace r = true ->
  Query.normalize_status (Some (l ++ s ++ r)) = Query.normalize_status (Some s) /\
  Off.normalize_status (Some (l ++ s ++ r)) = Off.normalize_status (Some s) /\
  On.normalize_status (Some (l ++ s ++ r)) = On.normalize_status (Some s).
Proof.
  intros Hl Hr; apply normalize_status_by_upper_strip.
  rewrite (strip_surrounded l s r Hl Hr); reflexivity.
Qed.

Lemma normalize_status_ignores_spaces_witness :
  forallb isspace [9; 32; 160] = true /\ forallb isspace [13; 10; 8195] = true /\
  @On.normalize_status ascii_only
    (Some ([9; 32; 160] ++ lit "startup" ++ [13; 10; 8195])) =
  @On.normalize_status ascii_only (Some (lit "startup")).
Proof.
  split; [reflexivity|]; split; [reflexivity|].
  exact (proj2 (proj2 (normalize_status_ignores_spaces ascii_only
                         [9; 32; 160] (lit "startup") [13; 10; 8195]
                         eq_refl eq_refl))).
Defined.

(** X3: a raw token that is empty or made of white space only is
    normalized to UNKNOWN by the three scripts. *)
Theorem normalize_status_blank (U : Unicode) (s : str) :
  forallb isspace s = true ->
  Query.normalize_status (Some s) = UNKNOWN /\
  Off.normalize_status (Some s) = UNKNOWN /\
  On.normalize_status (Some s) = UNKNOWN.
Proof.
  intros Hs.
  unfold Query.normalize_status, Off.normalize_status, On.normalize_status,
    strip.
  rewrite (lstrip_spaces s Hs); repeat split.
Qed.

Lemma normalize_status_blank_witness :
  forallb isspace [32; 9; 12288] = true /\
  @Query.normalize_status ascii_only (Some [32; 9; 12288]) = UNKNOWN.
Proof.
  split; [reflexivity|].
  exact (proj1 (normalize_status_blank ascii_only [32; 9; 12288] eq_refl)).
Defined.

(** X4: every raw token that equals OFF or STANDBY up to case, once trimmed,
    is normalized to OFF by the three scripts. *)
Theorem normalize_status_off_tokens (U : Unicode) (s T : str) :
  In T [lit "OFF"; lit "STANDBY"] ->
  equal_ignoring_case (strip s) T = true ->
  Query.normalize_status (Some s) = OFF /\
  Off.normalize_status (Some s) = OFF /\
  On.normalize_status (Some s) = OFF.
Proof.
  intros HT E.
  assert (Hup : upper (strip s) = T).
  { apply upper_of_equal_ignoring_case; [exact E | |];
      repeat (destruct HT as [<- | HT]; [try reflexivity; repeat constructor|]);
      contradiction. }
  unfold Query.normalize_status, Off.normalize_status, On.normalize_status.
  rewrite Hup.
  repeat (destruct HT as [<- | HT]; [repeat split|]); contradiction.
Qed.

Lemma normalize_status_off_tokens_witness :
  In (lit "STANDBY") [lit "OFF"; lit "STANDBY"] /\
  equal_ignoring_case (strip (lit " Standby ")) (lit "STANDBY") = true /\
  @Query.normalize_status ascii_only (Some (lit " Standby ")) = OFF.
Proof.
  assert (H : In (lit "STANDBY") [lit "OFF"; lit "STANDBY"])
    by (right; left; reflexivity).
  split; [exact H|]; split; [reflexivity|].
  exact (proj1 (normalize_status_off_tokens ascii_only (lit " Standby ")
                  (lit "STANDBY") H eq_refl)).
Defined.

(** X5: the normalizers of on.py and off.py differ on one kind of input
    only, the raw tokens whose trimmed, upper-cased form is POWER ON, which
    on.py calls UNKNOWN and off.py calls ON. *)
Theorem On_Off_normalize_status_differ (U : Unicode) (s : option str) :
  (On.normalize_status s <> Off.normalize_status s <->
   exists t, s = Some t /\ upper (strip t) = lit "POWER ON") /\
  (forall t, s = Some t -> upper (strip t) = lit "POWER ON" ->
   On.normalize_status s = UNKNOWN /\ Off.normalize_status s = ON).
Proof.
  assert (Hval : forall t, upper (strip t) = lit "POWER ON" ->
            On.normalize_status (Some t) = UNKNOWN /\
            Off.normalize_status (Some t) = ON).
  { intros t Ht; unfold On.normalize_status, Off.normalize_status.
    rewrite Ht; split; reflexivity. }
  split; [|intros t -> Ht; exact (Hval t Ht)].
  split.
  - destruct s as [t|]; [|intros Hd; exfalso; apply Hd; reflexivity].
    intros Hd; exists t; split; [reflexivity|].
    apply str_eqb_eq.
    destruct (str_eqb (upper (strip t)) (lit "POWER ON")) eqn:E;
      [reflexivity|].
    exfalso; apply Hd.
    unfold On.normalize_status, Off.normalize_status, in_tuple; simpl existsb.
    rewrite E, !orb_false_r; reflexivity.
  - intros (t & -> & Ht).
    destruct (Hval t Ht) as [-> ->]; discriminate.
Qed.

(** X6: the two tests that end a session at once are exact: off.py takes
    a raw token for OFF only when its trimmed, upper-cased form is OFF or
    STANDBY, and on.py takes one for ON only when that form is ON, STARTUP,
    STARTUP1 or STARTUP2; the absent token is neither. *)
Theorem short_circuit_tokens_exact (U : Unicode) (s : option str) :
  (Off.normalize_status s = OFF <->
   exists t, s = Some t /\ In (upper (strip t)) [lit "OFF"; lit "STANDBY"]) /\
  (On.normalize_status s = ON <->
   exists t, s = Some t /\
     In (upper (strip t))
        [lit "ON"; lit "STARTUP"; lit "STARTUP1"; lit "STARTUP2"]).
Proof.
  split; split.
  - destruct s as [t|]; [|discriminate].
    unfold Off.normalize_status; intros Hn.
    exists t; split; [reflexivity|]; apply in_tuple_In.
    destruct (in_tuple (upper (strip t)) [lit "OFF"; lit "STANDBY"]);
      [reflexivity|].
    destruct (in_tuple _ _); [discriminate|].
    destruct (_ || _); discriminate.
  - intros (t & -> & Hin); unfold Off.normalize_status.
    apply in_tuple_In in Hin; rewrite Hin.
    replace (in_tuple (upper (strip t)) _) with false; [reflexivity|].
    symmetry; apply in_tuple_false; intros Hon.
    apply in_tuple_In in Hin.
    repeat (destruct Hin as [E | Hin];
            [rewrite <- E in Hon;
             repeat (destruct Hon as [Hon | Hon];
                     [vm_compute in Hon; discriminate Hon|]);
             contradiction|]).
    contradiction.
  - destruct s as [t|]; [|discriminate].
    unfold On.normalize_status; intros Hn.
    exists t; split; [reflexivity|]; apply in_tuple_In.
    destruct (in_tuple (upper (strip t)) _); [reflexivity|].
    destruct (in_tuple _ _); [discriminate|].
    destruct (_ || _); discriminate.
  - intros (t & -> & Hin); unfold On.normalize_status.
    apply in_tuple_In in Hin; rewrite Hin; reflexivity.
Qed.

(** ** The matchers, read backwards and forwards *)

Lemma chars_inv {A : Type} (ic : bool) (p : str) (k : str -> option A) :
  forall (s : str) (r : A),
  chars ic p k s = Some r ->
  exists x s',
    s = x ++ s' /\
    Forall2 (fun a c => (if ic then ichar_matches a c else c =? a) = true) p x /\
    k s' = Some r.
Proof.
  induction p as [|c p IH]; intros s r Hr; simpl in Hr.
  - exists [], s; auto.
  - destruct s as [|c' s]; [discriminate|]; simpl in Hr.
    destruct (if ic then ichar_matches c c' else c' =? c) eqn:Ec;
      [|discriminate].
    destruct (IH _ _ Hr) as (x & s' & -> & Hl & Hk).
    exists (c' :: x), s'; simpl; auto.
Qed.

Lemma star_inv {A : Type} (cls : char -> bool) (k : str -> option A) :
  forall (s : str) (r : A),
  star cls k s = Some r -> exists w s', s = w ++ s' /\ k s' = Some r.
Proof.
  induction s as [|c s IH]; intros r Hr; simpl in Hr.
  - exists [], []; auto.
  - destruct (cls c); [|exists [], (c :: s); auto].
    destruct (star cls k s) as [r'|] eqn:E; [|exists [], (c :: s); auto].
    destruct (IH r' eq_refl) as (w & s' & -> & Hk).
    exists (c :: w), s'; split; [reflexivity | congruence].
Qed.

Lemma plus_inv {A : Type} (cls : char -> bool) (k : str -> option A)
    (s : str) (r : A) :
  plus cls k s = Some r -> exists w s', s = w ++ s' /\ k s' = Some r.
Proof.
  destruct s as [|c s]; [discriminate|]; simpl.
  destruct (cls c); [|discriminate]; intros Hr.
  destruct (star_inv _ _ _ _ Hr) as (w & s' & -> & Hk).
  exists (c :: w), s'; auto.
Qed.

(** What a group around [C*] hands on: the characters it captured, all of
    the class, and the text after them. *)
Lemma star_group_inv {A : Type} (cls : char -> bool)
    (k : str -> str -> option A) :
  forall (s acc : str) (r : A),
  star_group cls k acc s = Some r ->
  exists g s', s = g ++ s' /\ forallb cls g = true /\
               k (acc ++ g) s' = Some r.
Proof.
  induction s as [|c s IH]; intros acc r Hr; simpl in Hr.
  - exists [], []; simpl; rewrite app_nil_r; auto.
  - destruct (cls c) eqn:Ec;
      [|exists [], (c :: s); simpl; rewrite app_nil_r; auto].
    destruct (star_group cls k (acc ++ [c]) s) as [r'|] eqn:E;
      [|exists [], (c :: s); simpl; rewrite app_nil_r; auto].
    destruct (IH _ _ E) as (g & s' & -> & Hg & Hk).
    exists (c :: g), s'; simpl; rewrite Ec, Hg.
    rewrite <- app_assoc in Hk; simpl in Hk.
    split; [reflexivity|]; split; [reflexivity | congruence].
Qed.

Lemma search_inv {A : Type} (m : str -> option A) :
  forall (s : str) (r : A),
  search m s = Some r -> exists a b, s = a ++ b /\ m b = Some r.
Proof.
  induction s as [|c s IH]; intros r Hr; simpl in Hr.
  - exists [], []; destruct (m []); [auto | discriminate].
  - destruct (m (c :: s)) eqn:E.
    + exists [], (c :: s); split; [reflexivity | congruence].
    + destruct (IH _ Hr) as (a & b & -> & Hm).
      exists (c :: a), b; auto.
Qed.

(** A run of the class, followed by a text that does not go on with the
    class, is what [C*] and a group around it consume. *)
Lemma star_run {A : Type} (cls : char -> bool) (k : str -> option A)
    (w s : str) (r : A) :
  forallb cls w = true ->
  match s with c :: _ => cls c = false | [] => True end ->
  k s = Some r -> star cls k (w ++ s) = Some r.
Proof.
  intros Hw Hs Hk; induction w as [|c w IH]; simpl in *.
  - destruct s as [|c s]; [exact Hk|]; simpl; rewrite Hs; exact Hk.
  - apply andb_true_iff in Hw; destruct Hw as [-> Hw].
    rewrite (IH Hw); reflexivity.
Qed.

Lemma plus_run {A : Type} (cls : char -> bool) (k : str -> option A)
    (w s : str) (r : A) :
  w <> [] -> forallb cls w = true ->
  match s with c :: _ => cls c = false | [] => True end ->
  k s = Some r -> plus cls k (w ++ s) = Some r.
Proof.
  intros Hne Hw Hs Hk; destruct w as [|c w]; [contradiction|]; simpl in *.
  apply andb_true_iff in Hw; destruct Hw as [-> Hw].
  apply star_run; assumption.
Qed.

Lemma star_group_run {A : Type} (cls : char -> bool)
    (k : str -> str -> option A) (g s : str) (r : A) :
  forallb cls g = true ->
  match s with c :: _ => cls c = false | [] => True end ->
  forall acc : str,
  k (acc ++ g) s = Some r -> star_group cls k acc (g ++ s) = Some r.
Proof.
  intros Hg Hs; induction g as [|c g IH]; intros acc Hk; simpl in *.
  - rewrite app_nil_r in Hk.
    destruct s as [|c s]; [exact Hk|]; simpl; rewrite Hs; exact Hk.
  - apply andb_true_iff in Hg; destruct Hg as [-> Hg].
    rewrite (IH Hg (acc ++ [c])); [reflexivity|].
    rewrite <- app_assoc; exact Hk.
Qed.

Lemma chars_istarts_with {A : Type} (p : str) (k : str -> option A) :
  forall (s : str) (r : A),
  chars true p k s = Some r -> istarts_with p s = true.
Proof.
  induction p as [|c p IH]; intros s r Hr; [reflexivity|].
  destruct s as [|c' s]; [discriminate|]; simpl in *.
  destruct (ichar_matches c c'); [exact (IH _ _ Hr) | discriminate].
Qed.

Lemma icontains_app (p a b : str) :
  icontains p b = true -> icontains p (a ++ b) = true.
Proof.
  intros Hb; induction a as [|c a IH]; [exact Hb|].
  simpl; rewrite IH; apply orb_true_r.
Qed.

Lemma icontains_skip (p a b : str) :
  icontains p (a ++ b) = false -> icontains p b = false.
Proof.
  intros H; destruct (icontains p b) eqn:E; [|reflexivity].
  rewrite (icontains_app p a b E) in H; discriminate.
Qed.

Lemma one_char_inv {A : Type} (c : char) (k : str -> option A) (s : str)
    (r : A) :
  (97 <=? c) && (c <=? 122) = false ->
  chars true [c] k s = Some r -> exists s', s = c :: s' /\ k s' = Some r.
Proof.
  intros Hc; destruct s as [|c' s]; [discriminate|]; simpl.
  unfold ichar_matches; rewrite Hc.
  destruct (c' =? c) eqn:E.
  - apply N.eqb_eq in E; subst c'; simpl; eauto.
  - replace (c =? 105) with false; [replace (c =? 115) with false;
      [replace (c =? 107) with false; [discriminate|]|]|];
      symmetry; apply N.eqb_neq; intros ->; discriminate.
Qed.

(** A match of the status pattern at the head of a text: the name is in the
    text, and the group is a stretch of the text, free of the closing
    bracket and followed by one. *)
Lemma STATUS_RE_inv (s g : str) :
  On.STATUS_RE s = Some g ->
  icontains (lit "info_status_value") s = true /\
  free_of 93 g = true /\
  exists x y, s = x ++ g ++ 93 :: y.
Proof.
  unfold On.STATUS_RE; intros H.
  apply chars_inv in H; destruct H as (x1 & s1 & -> & _ & H).
  apply plus_inv in H; destruct H as (w1 & s2 & -> & H).
  pose proof (chars_istarts_with _ _ _ _ H) as Hname.
  apply chars_inv in H; destruct H as (x2 & s3 & -> & _ & H).
  apply star_inv in H; destruct H as (w2 & s4 & -> & H).
  apply chars_inv in H; destruct H as (x3 & s5 & -> & _ & H).
  apply star_inv in H; destruct H as (w3 & s6 & -> & H).
  apply chars_inv in H; destruct H as (x4 & s7 & -> & _ & H).
  apply star_group_inv in H; destruct H as (g' & s8 & -> & Hg & H).
  apply (one_char_inv 93) in H; [|reflexivity].
  destruct H as (y & -> & H); simpl in H; injection H as <-.
  split; [|split; [exact Hg|]].
  - apply icontains_app, icontains_app.
    destruct (istarts_with (lit "info_status_value") _) eqn:E;
      [|discriminate].
    unfold icontains; destruct (x2 ++ _); rewrite E; reflexivity.
  - exists (x1 ++ w1 ++ x2 ++ w2 ++ x3 ++ w3 ++ x4), y.
    rewrite <- !app_assoc; reflexivity.
Qed.

(** A match of the item pattern at the head of a text: the item, free of
    quotes, between two quotes. *)
Lemma QUOTED_ITEM_RE_inv (s x rest : str) :
  On.QUOTED_ITEM_RE s = Some (x, rest) ->
  s = 39 :: x ++ 39 :: rest /\ free_of 39 x = true.
Proof.
  unfold On.QUOTED_ITEM_RE; intros H.
  destruct s as [|c s]; [discriminate|]; simpl in H.
  destruct (c =? 39) eqn:Ec; [|discriminate].
  apply N.eqb_eq in Ec; subst c.
  apply star_group_inv in H; destruct H as (g & s' & -> & Hg & H).
  destruct s' as [|c' s']; [discriminate|]; simpl in H.
  destruct (c' =? 39) eqn:Ec; [|discriminate].
  apply N.eqb_eq in Ec; subst c'.
  injection H as <- <-; split; [reflexivity | exact Hg].
Qed.

Lemma findall_from_head (n : nat) (m : str -> option (str * str)) :
  forall (s x : str) (xs : list str),
  findall_from n m s = x :: xs ->
  exists a b rest, s = a ++ b /\ m b = Some (x, rest).
Proof.
  induction n as [|n IH]; intros s x xs H; [discriminate|]; simpl in H.
  destruct (m s) as [[g rest]|] eqn:E.
  - injection H as -> _; exists [], s, rest; auto.
  - destruct s as [|c s]; [discriminate|].
    destruct (IH _ _ _ H) as (a & b & rest & -> & Hm).
    exists (c :: a), b, rest; auto.
Qed.

Lemma lower_case_spec (c : char) :
  ((97 <=? c) && (c <=? 122) = true -> 97 <= c /\ c <= 122) /\
  ((97 <=? c) && (c <=? 122) = false -> c < 97 \/ 122 < c).
Proof.
  rewrite andb_true_iff, andb_false_iff, !N.leb_le, !N.leb_gt; tauto.
Qed.

Lemma ichar_matches_fold_case (c c' : char) :
  (97 <= c /\ c <= 122) \/ c = 95 ->
  fold_case c' = fold_case c -> ichar_matches c c' = true.
Proof.
  unfold ichar_matches, fold_case; intros Hc E.
  destruct (lower_case_spec c) as [Ht Hf], (lower_case_spec c') as [Ht' Hf'].
  destruct ((97 <=? c') && (c' <=? 122));
    destruct ((97 <=? c) && (c <=? 122));
    try specialize (Ht eq_refl); try specialize (Hf eq_refl);
    try specialize (Ht' eq_refl); try specialize (Hf' eq_refl).
  - replace (c' =? c) with true; [reflexivity|].
    symmetry; apply N.eqb_eq; lia.
  - lia.
  - replace (c' =? c - 32) with true; [destruct (c' =? c); reflexivity|].
    symmetry; apply N.eqb_eq; lia.
  - replace (c' =? c) with true; [reflexivity|].
    symmetry; apply N.eqb_eq; lia.
Qed.

Lemma ichars_run {A : Type} (p x s : str) (k : str -> option A) :
  Forall (fun c => (97 <= c /\ c <= 122) \/ c = 95) p ->
  map fold_case x = map fold_case p ->
  chars true p k (x ++ s) = k s.
Proof.
  intros Hp; revert x; induction Hp as [|c p Hc Hp IH]; intros x E.
  - destruct x; [reflexivity | discriminate].
  - destruct x as [|c' x]; [discriminate|].
    injection E as Ec Ex.
    simpl; rewrite (IH _ Ex), (ichar_matches_fold_case c c' Hc Ec).
    reflexivity.
Qed.

Lemma keyword_letters :
  Forall (fun c => (97 <= c /\ c <= 122) \/ c = 95) (lit "var") /\
  Forall (fun c => (97 <= c /\ c <= 122) \/ c = 95) (lit "info_status_value").
Proof.
  split; unfold lit; simpl;
    repeat (constructor; [first [left; lia | right; reflexivity]|]);
    constructor.
Qed.

(** The status pattern matches at a well-formed opening of a declaration
    whose bracket holds [g], and its group is [g]. *)
Lemma STATUS_RE_at_head (kw ws1 name ws2 ws3 g post : str) :
  well_formed_head kw ws1 name ws2 ws3 = true ->
  free_of 93 g = true ->
  On.STATUS_RE (declaration_head kw ws1 name ws2 ws3 ++ g ++ lit "]" ++ post)
  = Some g.
Proof.
  unfold well_formed_head; rewrite !andb_true_iff.
  intros (((((Hkw & Hname) & Hne) & H1) & H2) & H3) Hg.
  unfold equal_ignoring_case in Hkw, Hname.
  apply str_eqb_eq in Hkw; apply str_eqb_eq in Hname.
  destruct keyword_letters as [Lvar Lname].
  unfold On.STATUS_RE, declaration_head; rewrite <- !app_assoc.
  rewrite (ichars_run (lit "var") kw _ _ Lvar Hkw).
  destruct name as [|n name]; [discriminate|].
  assert (Hn : isspace n = false).
  { rewrite <- isspace_fold_case.
    injection Hname as -> _; reflexivity. }
  apply plus_run; [destruct ws1; [discriminate | discriminate] | exact H1
                  | exact Hn |].
  rewrite (ichars_run (lit "info_status_value") (n :: name) _ _ Lname Hname).
  apply star_run; [exact H2 | reflexivity |].
  change (lit "=" ++ ws3 ++ lit "[" ++ g ++ lit "]" ++ post)
    with (61 :: ws3 ++ lit "[" ++ g ++ lit "]" ++ post).
  change (chars true (lit "=") ?k (61 :: ?s)) with (k s).
  apply star_run; [exact H3 | reflexivity |].
  change (lit "[" ++ g ++ lit "]" ++ post)
    with (91 :: g ++ lit "]" ++ post).
  change (chars true (lit "[") ?k (91 :: ?s)) with (k s).
  apply star_group_run; [exact Hg | reflexivity | reflexivity].
Qed.

(** ** The status extractors *)

Lemma free_of_app (c : char) (a b : str) :
  free_of c (a ++ b) = free_of c a && free_of c b.
Proof. apply forallb_app. Qed.

Lemma free_of_remove_char (c : char) (s : str) :
  free_of c (remove_char c s) = true.
Proof.
  unfold free_of, remove_char; apply forallb_forall.
  intros x Hx; apply filter_In in Hx; tauto.
Qed.

Lemma free_of_remove_other (c c' : char) (s : str) :
  free_of c s = true -> free_of c (remove_char c' s) = true.
Proof.
  unfold free_of, remove_char; rewrite !forallb_forall.
  intros Hs x Hx; apply filter_In in Hx; apply Hs; tauto.
Qed.

Lemma one_line_free (html : str) :
  free_of 10 (one_line html) = true /\ free_of 13 (one_line html) = true.
Proof.
  unfold one_line; split.
  - apply free_of_remove_char.
  - apply free_of_remove_other, free_of_remove_char.
Qed.

Lemma one_line_insert (a b : str) (c : char) :
  c = 10 \/ c = 13 -> one_line (a ++ c :: b) = one_line (a ++ b).
Proof.
  unfold one_line, remove_char; intros [-> | ->];
    rewrite !filter_app; simpl; rewrite ?filter_app; reflexivity.
Qed.

Lemma free_of_part (c : char) (s part : str) :
  (forall x, In x part -> In x s) ->
  free_of c s = true -> free_of c part = true.
Proof.
  unfold free_of; rewrite !forallb_forall; auto.
Qed.

(** The three extractors are one function of the page on one line. *)
Lemma parse_info_status_one_line (html : str) :
  Off.parse_info_status html = On.parse_info_status html /\
  fst (Query.parse_info_status html) = On.parse_info_status html /\
  On.parse_info_status html =
    match search On.STATUS_RE (one_line html) with
    | None => None
    | Some g =>
        match findall On.QUOTED_ITEM_RE g with
        | x :: _ => Some x
        | [] => None
        end
    end.
Proof.
  repeat split.
  unfold Query.parse_info_status, On.parse_info_status.
  change Query.STATUS_RE with On.STATUS_RE.
  destruct (search On.STATUS_RE _); reflexivity.
Qed.

Lemma search_at_head {A : Type} (m : str -> option A) (s : str) (r : A) :
  m s = Some r -> search m s = Some r.
Proof. intros H; destruct s; cbn [search]; rewrite H; reflexivity. Qed.

Lemma search_first_declaration (s pre kw ws1 name ws2 ws3 g post : str) :
  s = pre ++ declaration_head kw ws1 name ws2 ws3 ++ g ++ lit "]" ++ post ->
  well_formed_head kw ws1 name ws2 ws3 = true ->
  free_of 93 g = true ->
  no_match_starts On.STATUS_RE pre
    (declaration_head kw ws1 name ws2 ws3 ++ g ++ lit "]" ++ post) = true ->
  search On.STATUS_RE s = Some g.
Proof.
  intros -> Hwf Hg Hn.
  rewrite (search_after_no_match _ _ _ Hn).
  apply search_at_head, STATUS_RE_at_head; assumption.
Qed.

Lemma QUOTED_ITEM_RE_at_item (tok more : str) :
  free_of 39 tok = true ->
  On.QUOTED_ITEM_RE (39 :: tok ++ 39 :: more) = Some (tok, more).
Proof.
  intros Ht; unfold On.QUOTED_ITEM_RE.
  change (chars false (lit "'") ?k (39 :: ?s)) with (k s).
  apply star_group_run; [exact Ht | reflexivity | reflexivity].
Qed.

Lemma findall_from_first_item (before tok more : str) :
  free_of 39 before = true -> free_of 39 tok = true ->
  forall n : nat, (List.length before < n)%nat ->
  exists items,
    findall_from n On.QUOTED_ITEM_RE (before ++ 39 :: tok ++ 39 :: more) =
    tok :: items.
Proof.
  intros Hb Ht; induction before as [|c before IH]; intros n Hn;
    (destruct n as [|n]; [simpl in Hn; lia|]); cbn [findall_from app].
  - rewrite (QUOTED_ITEM_RE_at_item tok more Ht); eexists; reflexivity.
  - simpl in Hb; apply andb_true_iff in Hb; destruct Hb as [Hc Hb].
    replace (On.QUOTED_ITEM_RE (c :: before ++ 39 :: tok ++ 39 :: more))
      with (@None (str * str)).
    + apply IH; [exact Hb | simpl in Hn; lia].
    + unfold On.QUOTED_ITEM_RE; simpl.
      destruct (c =? 39); [discriminate | reflexivity].
Qed.

Lemma findall_quoted_first (before tok more : str) :
  free_of 39 before = true -> free_of 39 tok = true ->
  exists items,
    findall On.QUOTED_ITEM_RE (before ++ lit "'" ++ tok ++ lit "'" ++ more) =
    tok :: items.
Proof.
  intros Hb Ht; unfold findall.
  change (before ++ lit "'" ++ tok ++ lit "'" ++ more)
    with (before ++ 39 :: tok ++ 39 :: more).
  apply findall_from_first_item; [exact Hb | exact Ht|].
  rewrite length_app; simpl; lia.
Qed.

Lemma findall_from_no_quote (n : nat) (s : str) :
  free_of 39 s = true -> findall_from n On.QUOTED_ITEM_RE s = [].
Proof.
  revert s; induction n as [|n IH]; intros s Hs; [reflexivity|].
  destruct s as [|c s]; [reflexivity|].
  simpl in Hs; apply andb_true_iff in Hs; destruct Hs as [Hc Hs].
  cbn [findall_from].
  replace (On.QUOTED_ITEM_RE (c :: s)) with (@None (str * str)).
  - apply IH; exact Hs.
  - unfold On.QUOTED_ITEM_RE; simpl.
    destruct (c =? 39); [discriminate | reflexivity].
Qed.

(** X7: the extractors do not see line breaks: a carriage return or a line
    feed inserted anywhere in a page, inside the declaration or inside the
    token as well, changes nothing in what the three of them return. *)
Theorem parse_info_status_ignores_line_breaks (a b : str) (c : char) :
  c = 10 \/ c = 13 ->
  On.parse_info_status (a ++ c :: b) = On.parse_info_status (a ++ b) /\
  Off.parse_info_status (a ++ c :: b) = Off.parse_info_status (a ++ b) /\
  Query.parse_info_status (a ++ c :: b) = Query.parse_info_status (a ++ b).
Proof.
  intros Hc; pose proof (one_line_insert a b c Hc) as E.
  unfold one_line in E.
  unfold On.parse_info_status, Off.parse_info_status,
    Query.parse_info_status.
  rewrite E; repeat split.
Qed.

Lemma parse_info_status_ignores_line_breaks_witness :
  (10 = 10 \/ 10 = 13) /\
  On.parse_info_status
    (lit "var info_status_value = ['STAND" ++ 10 :: lit "BY'];") =
  On.parse_info_status (lit "var info_status_value = ['STAND" ++ lit "BY'];").
Proof.
  assert (H : 10 = 10 \/ 10 = 13) by (left; reflexivity).
  split; [exact H|].
  exact (proj1 (parse_info_status_ignores_line_breaks
                  (lit "var info_status_value = ['STAND") (lit "BY'];") 10 H)).
Defined.

(** X8: a token the extractor returns stands in the page, on one line,
    between two single quotes, and it holds no single quote, no closing
    bracket, no carriage return and no line feed. *)
Theorem parse_info_status_token_in_page (html tok : str) :
  On.parse_info_status html = Some tok ->
  (exists a b, one_line html = a ++ 39 :: tok ++ 39 :: b) /\
  free_of 39 tok = true /\ free_of 93 tok = true /\
  free_of 10 tok = true /\ free_of 13 tok = true.
Proof.
  destruct (parse_info_status_one_line html) as (_ & _ & ->).
  destruct (search On.STATUS_RE (one_line html)) as [g|] eqn:Es;
    [|discriminate].
  destruct (findall On.QUOTED_ITEM_RE g) as [|x items] eqn:Ef;
    [discriminate|].
  intros H; injection H as ->.
  apply search_inv in Es; destruct Es as (a0 & b0 & E0 & Hm).
  apply STATUS_RE_inv in Hm; destruct Hm as (_ & Hg & x0 & y0 & ->).
  apply findall_from_head in Ef; destruct Ef as (a1 & b1 & rest & -> & Hq).
  apply QUOTED_ITEM_RE_inv in Hq; destruct Hq as (-> & Ht).
  destruct (one_line_free html) as [H10 H13].
  assert (Hin : forall x, In x tok -> In x (a1 ++ 39 :: tok ++ 39 :: rest))
    by (intros x Hx; rewrite in_app_iff; simpl; rewrite in_app_iff; tauto).
  assert (Hpage : forall x, In x tok -> In x (one_line html))
    by (intros x Hx; apply Hin in Hx; rewrite E0;
        apply in_or_app; right; apply in_or_app; right;
        apply in_or_app; left; exact Hx).
  split; [|repeat split].
  - exists (a0 ++ x0 ++ a1), (rest ++ 93 :: y0).
    rewrite E0, <- !app_assoc; simpl; rewrite <- !app_assoc; reflexivity.
  - exact Ht.
  - exact (free_of_part 93 _ _ Hin Hg).
  - exact (free_of_part 10 _ _ Hpage H10).
  - exact (free_of_part 13 _ _ Hpage H13).
Qed.

Lemma parse_info_status_token_in_page_witness :
  On.parse_info_status (page_of "COOLING2") = Some (lit "COOLING2") /\
  free_of 39 (lit "COOLING2") = true.
Proof.
  assert (H : On.parse_info_status (page_of "COOLING2") = Some (lit "COOLING2"))
    by reflexivity.
  split; [exact H|].
  exact (proj1 (proj2 (parse_info_status_token_in_page _ _ H))).
Defined.

(** X9: the extractors read the first declaration of the page.  When the
    page, on one line, holds a well-formed opening of a declaration that no
    match of the status pattern precedes, and the bracket holds a quoted
    token, after text without quotes and before anything without a closing
    bracket, that token is what the three extractors return, for every
    token without a single quote and without a closing bracket. *)
Theorem parse_info_status_declared_token
    (html pre kw ws1 name ws2 ws3 before tok more post : str) :
  one_line html =
    pre ++ declaration_head kw ws1 name ws2 ws3 ++
    (before ++ lit "'" ++ tok ++ lit "'" ++ more) ++ lit "]" ++ post ->
  well_formed_head kw ws1 name ws2 ws3 = true ->
  free_of 39 before = true -> free_of 93 before = true ->
  free_of 39 tok = true -> free_of 93 tok = true ->
  free_of 93 more = true ->
  no_match_starts On.STATUS_RE pre
    (declaration_head kw ws1 name ws2 ws3 ++
     (before ++ lit "'" ++ tok ++ lit "'" ++ more) ++ lit "]" ++ post) = true ->
  On.parse_info_status html = Some tok /\
  Off.parse_info_status html = Some tok /\
  fst (Query.parse_info_status html) = Some tok.
Proof.
  intros Hl Hwf Hb39 Hb93 Ht39 Ht93 Hm93 Hn.
  assert (Hg : free_of 93 (before ++ lit "'" ++ tok ++ lit "'" ++ more) = true)
    by (rewrite !free_of_app, Hb93, Ht93, Hm93; reflexivity).
  destruct (parse_info_status_one_line html) as (-> & -> & ->).
  rewrite (search_first_declaration _ _ _ _ _ _ _ _ _ Hl Hwf Hg Hn).
  destruct (findall_quoted_first before tok more Hb39 Ht39) as (items & ->).
  repeat split.
Qed.

Lemma parse_info_status_declared_token_witness :
  one_line (lit "<script>VAR" ++ 13 :: 10 :: 9 :: lit "Info_Status_Value= [ 'Warm up' , 'x' ];")
  = lit "<script>" ++
    declaration_head (lit "VAR") [9] (lit "Info_Status_Value") [] [32] ++
    (lit " " ++ lit "'" ++ lit "Warm up" ++ lit "'" ++ lit " , 'x' ") ++
    lit "]" ++ lit ";" /\
  On.parse_info_status
    (lit "<script>VAR" ++ 13 :: 10 :: 9 :: lit "Info_Status_Value= [ 'Warm up' , 'x' ];")
  = Some (lit "Warm up").
Proof.
  assert (H : one_line (lit "<script>VAR" ++ 13 :: 10 :: 9 ::
                        lit "Info_Status_Value= [ 'Warm up' , 'x' ];")
              = lit "<script>" ++
                declaration_head (lit "VAR") [9] (lit "Info_Status_Value")
                  [] [32] ++
                (lit " " ++ lit "'" ++ lit "Warm up" ++ lit "'" ++
                 lit " , 'x' ") ++
                lit "]" ++ lit ";")
    by reflexivity.
  split; [exact H|].
  exact (proj1 (parse_info_status_declared_token _ _ _ _ _ _ _ _ _ _ _ H
                  eq_refl eq_refl eq_refl eq_refl eq_refl eq_refl eq_refl)).
Defined.

(** X10: when the bracket of the first declaration holds no single quote,
    as in an empty array, the three extractors return no token, whatever
    follows the declaration, a second declaration included, and the three
    normalizers then say UNKNOWN. *)
Theorem parse_info_status_unquoted (U : Unicode)
    (html pre kw ws1 name ws2 ws3 body post : str) :
  one_line html =
    pre ++ declaration_head kw ws1 name ws2 ws3 ++ body ++ lit "]" ++ post ->
  well_formed_head kw ws1 name ws2 ws3 = true ->
  free_of 39 body = true -> free_of 93 body = true ->
  no_match_starts On.STATUS_RE pre
    (declaration_head kw ws1 name ws2 ws3 ++ body ++ lit "]" ++ post) = true ->
  On.parse_info_status html = None /\
  Off.parse_info_status html = None /\
  Query.parse_info_status html = (None, []) /\
  On.normalize_status (On.parse_info_status html) = UNKNOWN /\
  Off.normalize_status (Off.parse_info_status html) = UNKNOWN /\
  Query.normalize_status (fst (Query.parse_info_status html)) = UNKNOWN.
Proof.
  intros Hl Hwf Hb39 Hb93 Hn.
  pose proof (search_first_declaration _ _ _ _ _ _ _ _ _ Hl Hwf Hb93 Hn) as Hs.
  assert (Hq : Query.parse_info_status html = (None, [])).
  { unfold Query.parse_info_status; change Query.STATUS_RE with On.STATUS_RE.
    fold (one_line html); rewrite Hs.
    change Query.QUOTED_ITEM_RE with On.QUOTED_ITEM_RE.
    unfold findall; rewrite (findall_from_no_quote _ _ Hb39); reflexivity. }
  destruct (parse_info_status_one_line html) as (Hoff & Hfst & _).
  rewrite Hoff, <- Hfst, Hq; repeat split.
Qed.

Lemma parse_info_status_unquoted_witness :
  one_line (lit "var info_status_value = [];" ++ 10 :: page_of "ON") =
    [] ++ declaration_head (lit "var") [32] (lit "info_status_value") [32] [32]
    ++ [] ++ lit "]" ++ lit ";" ++ page_of "ON" /\
  On.parse_info_status (lit "var info_status_value = [];" ++ 10 :: page_of "ON")
  = None.
Proof.
  assert (H : one_line (lit "var info_status_value = [];" ++ 10 :: page_of "ON")
              = [] ++ declaration_head (lit "var") [32]
                        (lit "info_status_value") [32] [32]
                ++ [] ++ lit "]" ++ lit ";" ++ page_of "ON")
    by reflexivity.
  split; [exact H|].
  exact (proj1 (parse_info_status_unquoted ascii_only _ _ _ _ _ _ _ _ _ H
                  eq_refl eq_refl eq_refl eq_refl)).
Defined.

(** X11: a page in which the name info_status_value does not occur, in any
    case and once line breaks are removed, gives no token with any of the
    three extractors, and UNKNOWN with the three normalizers. *)
Theorem parse_info_status_no_name (U : Unicode) (html : str) :
  icontains (lit "info_status_value") (one_line html) = false ->
  On.parse_info_status html = None /\
  Off.parse_info_status html = None /\
  Query.parse_info_status html = (None, []) /\
  On.normalize_status (On.parse_info_status html) = UNKNOWN /\
  Off.normalize_status (Off.parse_info_status html) = UNKNOWN /\
  Query.normalize_status (fst (Query.parse_info_status html)) = UNKNOWN.
Proof.
  intros Hno.
  assert (Hs : search On.STATUS_RE (one_line html) = None).
  { destruct (search On.STATUS_RE (one_line html)) as [g|] eqn:Es;
      [|reflexivity].
    apply search_inv in Es; destruct Es as (a & b & E & Hm).
    apply STATUS_RE_inv in Hm; destruct Hm as (Hname & _).
    rewrite E in Hno; rewrite (icontains_app _ a b Hname) in Hno.
    discriminate. }
  assert (Hq : Query.parse_info_status html = (None, [])).
  { unfold Query.parse_info_status; change Query.STATUS_RE with On.STATUS_RE.
    fold (one_line html); rewrite Hs; reflexivity. }
  destruct (parse_info_status_one_line html) as (Hoff & Hfst & _).
  rewrite Hoff, <- Hfst, Hq; repeat split.
Qed.

Lemma parse_info_status_no_name_witness :
  icontains (lit "info_status_value")
    (one_line (lit "<html>var info_status = ['ON'];</html>")) = false /\
  On.parse_info_status (lit "<html>var info_status = ['ON'];</html>") = None.
Proof.
  split; [reflexivity|].
  exact (proj1 (parse_info_status_no_name ascii_only
                  (lit "<html>var info_status = ['ON'];</html>") eq_refl)).
Defined.

(** X12: the extractors of the three scripts return the same token on every
    page, and the token query.py returns is the head of the list of items
    it returns beside it: there is no token exactly when the list is
    empty. *)
Theorem parse_info_status_agree (html : str) :
  Off.parse_info_status html = On.parse_info_status html /\
  fst (Query.parse_info_status html) = On.parse_info_status html /\
  fst (Query.parse_info_status html) =
    hd_error (snd (Query.parse_info_status html)).
Proof.
  destruct (parse_info_status_one_line html) as (Hoff & Hfst & _).
  split; [exact Hoff|]; split; [exact Hfst|].
  unfold Query.parse_info_status.
  destruct (search Query.STATUS_RE _); [|reflexivity].
  destruct (findall Query.QUOTED_ITEM_RE _); reflexivity.
Qed.

(** ** The polling loop, once for the two scripts *)

Lemma On_poll_until `{Unicode} (d : device) (fuel : nat) :
  forall st : state,
  On.poll d fuel st =
  poll_until On.get_status On.POLL_INTERVAL On.MAX_WAIT ON d fuel st.
Proof.
  induction fuel as [|fuel IH]; intros st; [reflexivity|].
  cbn [On.poll poll_until].
  destruct (now st - start st <? On.MAX_WAIT)%Z; [|reflexivity].
  destruct (On.get_status d (sleep d On.POLL_INTERVAL st)) as [status st'].
  destruct (str_eqb status ON); [reflexivity | apply IH].
Qed.

Lemma Off_poll_until `{Unicode} (d : device) (fuel : nat) :
  forall st : state,
  Off.poll d fuel st =
  poll_until Off.get_status Off.POLL_INTERVAL Off.MAX_WAIT OFF d fuel st.
Proof.
  induction fuel as [|fuel IH]; intros st; [reflexivity|].
  cbn [Off.poll poll_until].
  destruct (now st - start st <? Off.MAX_WAIT)%Z; [|reflexivity].
  destruct (Off.get_status d (sleep d Off.POLL_INTERVAL st)) as [status st'].
  destruct (str_eqb status OFF); [reflexivity | apply IH].
Qed.

Lemma On_reads_status `{Unicode} : reads_status On.get_status On.reading.
Proof.
  intros d st; unfold On.get_status, On.reading, warning, fetch.
  destruct (status_page d (fetches st)) as [e|html]; simpl;
    rewrite <- ?app_assoc; repeat split.
Qed.

Lemma Off_reads_status `{Unicode} : reads_status Off.get_status Off.reading.
Proof.
  intros d st; unfold Off.get_status, Off.reading, warning, fetch.
  destruct (status_page d (fetches st)) as [e|html]; simpl;
    rewrite <- ?app_assoc; repeat split.
Qed.

Lemma status_count_app (a b : list event) :
  status_count (a ++ b) = (status_count a + status_count b)%nat.
Proof. unfold status_count; rewrite filter_app, length_app; reflexivity. Qed.

Lemma sleep_count_app (a b : list event) :
  sleep_count (a ++ b) = (sleep_count a + sleep_count b)%nat.
Proof. unfold sleep_count; rewrite filter_app, length_app; reflexivity. Qed.

Lemma warning_counts (d : device) (k : nat) :
  toggle_count (warning d k) = 0%nat /\ status_count (warning d k) = 0%nat /\
  sleep_count (warning d k) = 0%nat.
Proof. unfold warning; destruct (status_page d k); repeat split. Qed.

Section Polling.
Context (get : device -> state -> str * state) (rd : device -> nat -> str).
Context (interval max_wait : Z) (target : str) (d : device).
Hypothesis Hget : reads_status get rd.
Hypothesis Hinterval : (0 < interval)%Z.

(** One turn of the loop that does not reach the target. *)
Lemma poll_until_step (fuel : nat) (st : state) :
  (now st - start st < max_wait)%Z ->
  poll_until get interval max_wait target d (S fuel) st =
  if str_eqb (rd d (fetches st)) target
  then say_and_exit d Reached 0
         (say (PollStatus (rd d (fetches st)))
            (snd (get d (sleep d interval st))))
  else poll_until get interval max_wait target d fuel
         (say (PollStatus (rd d (fetches st)))
            (snd (get d (sleep d interval st)))).
Proof.
  intros E; apply Z.ltb_lt in E; cbn [poll_until]; rewrite E.
  destruct (Hget d (sleep d interval st)) as (Hs & _).
  destruct (get d (sleep d interval st)) as [status st'].
  cbn [fst snd fetches sleep emit] in *; subst status; reflexivity.
Qed.

(** Whatever the loop returns: how many turns it made, what each turn did,
    and why it ended. *)
Lemma poll_until_facts (fuel : nat) :
  forall (st : state) (c : Z) (st' : state),
  poll_until get interval max_wait target d fuel st = Some (c, st') ->
  exists (n : nat) (loop : list event),
    events st' = events st ++ loop /\
    fetches st' = (fetches st + n)%nat /\ naps st' = (naps st + n)%nat /\
    toggles st' = toggles st /\ start st' = start st /\
    status_count loop = n /\ sleep_count loop = n /\
    toggle_count loop = 0%nat /\
    (now st + Z.of_nat n * interval <= now st')%Z /\
    (n = 0%nat \/
     ((Z.of_nat n - 1) * interval < max_wait - (now st - start st))%Z) /\
    ((c = (if prints d Reached then 0 else 1)%Z /\ (1 <= n)%nat /\
      rd d (fetches st + n - 1) = target /\
      forall k, (k < n - 1)%nat -> rd d (fetches st + k) <> target) \/
     (c = 1%Z /\ (max_wait <= now st' - start st')%Z /\
      forall k, (k < n)%nat -> rd d (fetches st + k) <> target)).
Proof.
  induction fuel as [|fuel IH]; intros st c st' Hp.
  - cbn [poll_until] in Hp.
    destruct (now st - start st <? max_wait)%Z eqn:E; [discriminate|].
    apply Z.ltb_ge in E; rewrite say_and_exit_timed_out in Hp;
      injection Hp as <- <-.
    exists 0%nat, [Stdout TimedOut].
    cbn [say emit events fetches naps toggles start now].
    repeat split; try lia; try (left; reflexivity).
    right; repeat split; [exact E | intros k Hk; lia].
  - destruct (now st - start st <? max_wait)%Z eqn:E.
    + apply Z.ltb_lt in E; rewrite (poll_until_step fuel st E) in Hp.
      destruct (Hget d (sleep d interval st))
        as (_ & He & Hn & Hf & Ht & Hna & Hst).
      set (st1 := snd (get d (sleep d interval st))) in *.
      cbn [sleep emit events now fetches toggles naps start] in
        He, Hn, Hf, Ht, Hna, Hst.
      destruct (warning_counts d (fetches st)) as (Wt & Ws & Wn).
      destruct (str_eqb (rd d (fetches st)) target) eqn:Et.
      * apply str_eqb_eq in Et; unfold say_and_exit in Hp.
        injection Hp as <- <-.
        exists 1%nat,
          (Sleep interval :: GetStatus :: warning d (fetches st) ++
           [Stdout (PollStatus (rd d (fetches st))); Stdout Reached]).
        cbn [say emit events fetches naps toggles start now].
        rewrite He, Hn, Hf, Ht, Hna, Hst, <- !app_assoc.
        split; [reflexivity|].
        split; [lia|]; split; [lia|]; split; [reflexivity|].
        split; [reflexivity|].
        split; [change (S (status_count (warning d (fetches st) ++
                  [Stdout (PollStatus (rd d (fetches st))); Stdout Reached]))
                  = 1%nat); rewrite status_count_app, Ws; reflexivity|].
        split; [change (S (sleep_count (warning d (fetches st) ++
                  [Stdout (PollStatus (rd d (fetches st))); Stdout Reached]))
                  = 1%nat); rewrite sleep_count_app, Wn; reflexivity|].
        split; [change (toggle_count (warning d (fetches st) ++
                  [Stdout (PollStatus (rd d (fetches st))); Stdout Reached])
                  = 0%nat); rewrite toggle_count_app, Wt; reflexivity|].
        split; [lia|]; split; [right; lia|].
        left; split; [reflexivity|]; split; [lia|].
        split; [replace (fetches st + 1 - 1)%nat with (fetches st) by lia;
                exact Et | intros k Hk; lia].
      * assert (Hne : rd d (fetches st) <> target)
          by (intros Heq; apply str_eqb_eq in Heq; congruence).
        destruct (IH _ _ _ Hp)
          as (n & loop & He' & Hf' & Hna' & Ht' & Hst' & Cs & Cn & Ct &
              Hnow & Hbound & Hend).
        cbn [say emit events fetches naps toggles start now] in
          He', Hf', Hna', Ht', Hst', Hnow, Hbound, Hend.
        exists (S n),
          (Sleep interval :: GetStatus :: warning d (fetches st) ++
           Stdout (PollStatus (rd d (fetches st))) :: loop).
        rewrite He', He, Hf', Hf, Hna', Hna, Ht', Ht, Hst', Hst, <- !app_assoc.
        split; [reflexivity|].
        split; [lia|]; split; [lia|]; split; [reflexivity|].
        split; [reflexivity|].
        split; [change (S (status_count (warning d (fetches st) ++
                  Stdout (PollStatus (rd d (fetches st))) :: loop)) = S n);
                rewrite status_count_app, Ws;
                change (status_count (Stdout (PollStatus (rd d (fetches st)))
                                      :: loop)) with (status_count loop);
                rewrite Cs; reflexivity|].
        split; [change (S (sleep_count (warning d (fetches st) ++
                  Stdout (PollStatus (rd d (fetches st))) :: loop)) = S n);
                rewrite sleep_count_app, Wn;
                change (sleep_count (Stdout (PollStatus (rd d (fetches st)))
                                     :: loop)) with (sleep_count loop);
                rewrite Cn; reflexivity|].
        split; [change (toggle_count (warning d (fetches st) ++
                  Stdout (PollStatus (rd d (fetches st))) :: loop) = 0%nat);
                rewrite toggle_count_app, Wt;
                change (toggle_count (Stdout (PollStatus (rd d (fetches st)))
                                      :: loop)) with (toggle_count loop);
                exact Ct|].
        rewrite Hn in Hnow; rewrite Hn, Hst in Hbound.
        split; [lia|].
        split; [right; destruct Hbound as [-> | Hb]; nia|].
        rewrite Hf in Hend.
        destruct Hend as [(-> & Hn1 & Hlast & Hbefore) |
                          (-> & Hw & Hall)].
        -- left; split; [reflexivity|]; split; [lia|].
           split; [replace (fetches st + S n - 1)%nat
                     with (S (fetches st) + n - 1)%nat by lia; exact Hlast|].
           intros [|k] Hk; [rewrite Nat.add_0_r; exact Hne|].
           replace (fetches st + S k)%nat with (S (fetches st) + k)%nat by lia.
           apply Hbefore; lia.
        -- right; split; [reflexivity|].
           split; [rewrite Hst', Hst in Hw; exact Hw|].
           intros [|k] Hk; [rewrite Nat.add_0_r; exact Hne|].
           replace (fetches st + S k)%nat with (S (fetches st) + k)%nat by lia.
           apply Hall; lia.
    + cbn [poll_until] in Hp; rewrite E in Hp.
      apply Z.ltb_ge in E; rewrite say_and_exit_timed_out in Hp;
      injection Hp as <- <-.
      exists 0%nat, [Stdout TimedOut].
      cbn [say emit events fetches naps toggles start now].
      repeat split; try lia; try (left; reflexivity).
      right; repeat split; [exact E | intros k Hk; lia].
Qed.
End Polling.

Section Instant.
Context (get : device -> state -> str * state) (rd : device -> nat -> str).
Context (interval max_wait : Z) (target : str) (d : device).
Hypothesis Hget : reads_status get rd.
Hypothesis Hinterval : (0 < interval)%Z.
Hypothesis Hinstant : instant d.

Lemma instant_turn (st : state) (l : line) :
  fetches (say l (snd (get d (sleep d interval st)))) = S (fetches st) /\
  now (say l (snd (get d (sleep d interval st)))) = (now st + interval)%Z /\
  start (say l (snd (get d (sleep d interval st)))) = start st.
Proof.
  destruct (Hget d (sleep d interval st)) as (_ & _ & Hn & Hf & _ & _ & Hs).
  cbn [say emit sleep now fetches start naps] in *.
  destruct (Hinstant (fetches st)) as (Hd & _ & _).
  destruct (Hinstant (naps st)) as (_ & _ & Ho).
  rewrite Hn, Hf, Hs, Hd, Ho; repeat split; lia.
Qed.

(** On a device that answers at once, the loop ends at the first reading
    of the target, if the deadline allows that many turns; the status is 0
    if the line of that end is written. *)
Lemma poll_until_reaches (k : nat) :
  forall (fuel : nat) (st : state),
  (k < fuel)%nat ->
  (forall j, (j < k)%nat -> rd d (fetches st + j) <> target) ->
  rd d (fetches st + k) = target ->
  (now st - start st + Z.of_nat k * interval < max_wait)%Z ->
  exists st' : state,
    poll_until get interval max_wait target d fuel st =
      Some (if prints d Reached then 0%Z else 1%Z, st') /\
    fetches st' = (fetches st + k + 1)%nat /\
    now st' = (now st + (Z.of_nat k + 1) * interval)%Z /\
    exists es, events st' = es ++ [Stdout Reached].
Proof.
  induction k as [|k IH]; intros fuel st Hf Hbefore Hat Htime;
    (destruct fuel as [|fuel]; [lia|]);
    (rewrite (poll_until_step get rd interval max_wait target d Hget)
       by lia).
  - rewrite Nat.add_0_r in Hat; rewrite Hat, str_eqb_refl.
    eexists; split; [reflexivity|].
    destruct (instant_turn st (PollStatus target)) as (Hf' & Hn' & _).
    cbn [say emit fetches now events] in *; rewrite Hf', Hn'.
    split; [lia|]; split; [lia|]; eexists; reflexivity.
  - assert (Hne : str_eqb (rd d (fetches st)) target = false).
    { destruct (str_eqb (rd d (fetches st)) target) eqn:E; [|reflexivity].
      apply str_eqb_eq in E; exfalso; apply (Hbefore 0%nat); [lia|].
      rewrite Nat.add_0_r; exact E. }
    rewrite Hne.
    destruct (instant_turn st (PollStatus (rd d (fetches st))))
      as (Hf' & Hn' & Hs').
    destruct (IH fuel (say (PollStatus (rd d (fetches st)))
                         (snd (get d (sleep d interval st)))))
      as (st' & Hp & Hfs & Hns & Hlast).
    + lia.
    + intros j Hj; rewrite Hf'.
      replace (S (fetches st) + j)%nat with (fetches st + S j)%nat by lia.
      apply Hbefore; lia.
    + rewrite Hf'.
      replace (S (fetches st) + k)%nat with (fetches st + S k)%nat by lia.
      exact Hat.
    + rewrite Hn', Hs'; lia.
    + exists st'; split; [exact Hp|]; rewrite Hfs, Hns, Hf', Hn'.
      split; [lia|]; split; [lia | exact Hlast].
Qed.

(** On such a device, when no reading is the target, the loop makes the
    turns the deadline allows and then times out. *)
Lemma poll_until_times_out (n : nat) :
  forall (fuel : nat) (st : state),
  (n <= fuel)%nat ->
  (forall j, (j < n)%nat -> rd d (fetches st + j) <> target) ->
  (max_wait <= now st - start st + Z.of_nat n * interval)%Z ->
  (n = 0%nat \/
   (now st - start st + (Z.of_nat n - 1) * interval < max_wait)%Z) ->
  exists st' : state,
    poll_until get interval max_wait target d fuel st = Some (1%Z, st') /\
    fetches st' = (fetches st + n)%nat /\
    now st' = (now st + Z.of_nat n * interval)%Z.
Proof.
  induction n as [|n IH]; intros fuel st Hf Hnone Hlate Hearly.
  - assert (E : (now st - start st <? max_wait)%Z = false)
      by (apply Z.ltb_ge; lia).
    exists (say TimedOut st).
    destruct fuel; cbn [poll_until]; rewrite E, say_and_exit_timed_out;
      cbn [say emit fetches now]; repeat split; lia.
  - destruct fuel as [|fuel]; [lia|].
    destruct Hearly as [Hz | Hearly]; [discriminate|].
    rewrite (poll_until_step get rd interval max_wait target d Hget) by nia.
    assert (Hne : str_eqb (rd d (fetches st)) target = false).
    { destruct (str_eqb (rd d (fetches st)) target) eqn:E; [|reflexivity].
      apply str_eqb_eq in E; exfalso; apply (Hnone 0%nat); [lia|].
      rewrite Nat.add_0_r; exact E. }
    rewrite Hne.
    destruct (instant_turn st (PollStatus (rd d (fetches st))))
      as (Hf' & Hn' & Hs').
    destruct (IH fuel (say (PollStatus (rd d (fetches st)))
                         (snd (get d (sleep d interval st)))))
      as (st' & Hp & Hfs & Hns).
    + lia.
    + intros j Hj; rewrite Hf'.
      replace (S (fetches st) + j)%nat with (fetches st + S j)%nat by lia.
      apply Hnone; lia.
    + rewrite Hn', Hs'; lia.
    + rewrite Hn', Hs'; destruct n as [|n]; [left; reflexivity | right; lia].
    + exists st'; split; [exact Hp|]; rewrite Hfs, Hns, Hf', Hn'; split; lia.
Qed.
End Instant.

(** ** on.py: the whole session *)

Lemma On_main_split `{Unicode} (d : device) :
  On.main d =
  if str_eqb (On.reading d 0) ON
  then say_and_exit d Already 0 (On_first_read d)
  else poll_until On.get_status On.POLL_INTERVAL On.MAX_WAIT ON d
         (Z.to_nat On.MAX_WAIT) (On_entry d).
Proof.
  unfold On.main, On_entry, On_first_read.
  destruct (On_reads_status d (say Checking (initial d))) as (Hs & _).
  destruct (On.get_status d (say Checking (initial d))) as [status st1].
  cbn [fst snd say emit initial fetches] in *; subst status.
  destruct (str_eqb (On.reading d 0) ON); [reflexivity | apply On_poll_until].
Qed.

Lemma On_first_read_facts `{Unicode} (d : device) :
  events (On_first_read d) =
    [Stdout Checking; GetStatus] ++ warning d 0 ++
    [Stdout (CurrentStatus (On.reading d 0))] /\
  fetches (On_first_read d) = 1%nat /\ naps (On_first_read d) = 0%nat /\
  toggles (On_first_read d) = 0%nat /\
  now (On_first_read d) = (boot d + Z.of_N (status_delay d 0))%Z.
Proof.
  unfold On_first_read.
  destruct (On_reads_status d (say Checking (initial d)))
    as (_ & He & Hn & Hf & Ht & Hna & _).
  cbn [say emit initial events now fetches toggles naps app] in *.
  rewrite He, Hn, Hf, Ht, Hna; repeat split.
Qed.

Lemma On_entry_facts `{Unicode} (d : device) :
  events (On_entry d) =
    [Stdout Checking; GetStatus] ++ warning d 0 ++
    [Stdout (CurrentStatus (On.reading d 0)); Stdout Sending; GetToggle;
     Stdout (toggle_line d 0)] /\
  fetches (On_entry d) = 1%nat /\ naps (On_entry d) = 0%nat /\
  toggles (On_entry d) = 1%nat /\
  start (On_entry d) = now (On_entry d) /\
  now (On_entry d) =
    (boot d + Z.of_N (status_delay d 0) + Z.of_N (toggle_delay d 0))%Z.
Proof.
  destruct (On_first_read_facts d) as (He & Hf & Hna & Ht & Hn).
  unfold On_entry, toggle_power, toggle_line.
  cbn [say emit toggles]; rewrite Ht.
  destruct (toggle_reply d 0);
    cbn [set_start say emit events now fetches toggles naps start];
    rewrite He, Hf, Hna, Hn, <- !app_assoc; repeat split.
Qed.

Lemma On_entry_counts `{Unicode} (d : device) :
  toggle_count (events (On_entry d)) = 1%nat /\
  status_count (events (On_entry d)) = 1%nat /\
  sleep_count (events (On_entry d)) = 0%nat.
Proof.
  destruct (On_entry_facts d) as (-> & _).
  destruct (warning_counts d 0) as (Wt & Ws & Wn).
  rewrite !toggle_count_app, !status_count_app, !sleep_count_app, Wt, Ws, Wn.
  repeat split.
Qed.

(** The loop of on.py, entered by [main], ends. *)
Lemma On_loop_ends `{Unicode} (d : device) :
  exists (c : Z) (st : state),
    poll_until On.get_status On.POLL_INTERVAL On.MAX_WAIT ON d
      (Z.to_nat On.MAX_WAIT) (On_entry d) = Some (c, st).
Proof.
  destruct (On_poll_spec d (Z.to_nat On.MAX_WAIT) (On_entry d))
    as (c & st & _ & Hp & _).
  - destruct (On_entry_facts d) as (_ & _ & _ & _ & -> & _).
    unfold On.MAX_WAIT, On.POLL_INTERVAL; lia.
  - exists c, st; rewrite <- On_poll_until; exact Hp.
Qed.

(** X13: whenever the first status read of on.py yields ON, the run is that
    one status read between its messages: no toggle, no sleep, no further
    read.  Its exit status is 0 if standard output has the U+2705 the last
    message starts with; if not, the print of that message raises and the
    status is 1. *)
Theorem On_main_already_on (U : Unicode) (d : device) :
  On.reading d 0 = ON ->
  exists st : state,
    On.main d = Some (if encodable d 9989 then 0%Z else 1%Z, st) /\
    events st =
      [Stdout Checking; GetStatus; Stdout (CurrentStatus ON); Stdout Already] /\
    fetches st = 1%nat /\ toggles st = 0%nat /\ naps st = 0%nat.
Proof.
  intros Hon; rewrite On_main_split, Hon.
  change (str_eqb ON ON) with true; cbv iota.
  destruct (On_first_read_facts d) as (He & Hf & Hna & Ht & _).
  rewrite On_reading_known, Hon in He by (rewrite Hon; discriminate).
  unfold say_and_exit; rewrite prints_check_mark by (left; reflexivity).
  eexists; split; [reflexivity|].
  cbn [say emit events fetches toggles naps]; rewrite He, Hf, Hna, Ht.
  repeat split.
Qed.

Lemma On_main_already_on_witness :
  @On.reading ascii_only (steady (page_of "Startup2")) 0 = ON /\
  (exists st : state,
     @On.main ascii_only (steady (page_of "Startup2")) = Some (0%Z, st) /\
     toggles st = 0%nat) /\
  @On.reading ascii_only (ascii_stdout (steady (page_of "Startup2"))) 0 = ON /\
  (exists st : state,
     @On.main ascii_only (ascii_stdout (steady (page_of "Startup2"))) =
       Some (1%Z, st) /\
     toggles st = 0%nat).
Proof.
  assert (H : @On.reading ascii_only (steady (page_of "Startup2")) 0 = ON)
    by reflexivity.
  assert (H' : @On.reading ascii_only
                 (ascii_stdout (steady (page_of "Startup2"))) 0 = ON)
    by reflexivity.
  split; [exact H|]; split; [|split; [exact H'|]].
  - destruct (On_main_already_on ascii_only _ H) as (st & Hm & _ & _ & Ht & _).
    exists st; split; [exact Hm | exact Ht].
  - destruct (On_main_already_on ascii_only _ H') as (st & Hm & _ & _ & Ht & _).
    exists st; split; [exact Hm | exact Ht].
Defined.



(** What [main] of on.py returns, when it is the loop that returns it. *)
Lemma On_loop_facts `{Unicode} (d : device) (c : Z) (st : state) :
  poll_until On.get_status On.POLL_INTERVAL On.MAX_WAIT ON d
    (Z.to_nat On.MAX_WAIT) (On_entry d) = Some (c, st) ->
  exists n : nat,
    fetches st = S n /\ naps st = n /\ toggles st = 1%nat /\
    status_count (events st) = S n /\ sleep_count (events st) = n /\
    toggle_count (events st) = 1%nat /\ (n <= 30)%nat /\
    start st = now (On_entry d) /\
    ((c = (if encodable d 9989 then 0%Z else 1%Z) /\ (1 <= n)%nat /\
      On.reading d n = ON /\
      forall k, (1 <= k < n)%nat -> On.reading d k <> ON) \/
     (c = 1%Z /\ (90 <= now st - start st)%Z /\
      forall k, (1 <= k <= n)%nat -> On.reading d k <> ON)).
Proof.
  intros Hp.
  destruct (poll_until_facts _ _ _ _ _ d On_reads_status _ _ _ _ Hp)
    as (n & loop & He & Hf & Hna & Ht & Hs & Cs & Cn & Ct & _ & Hb & Hend).
  destruct (On_entry_facts d) as (_ & Ef & Ena & Et & Es & _).
  destruct (On_entry_counts d) as (Ect & Ecs & Ecn).
  rewrite Ef in Hf, Hend; rewrite Ena in Hna; rewrite Et in Ht.
  rewrite Es in Hs, Hb.
  exists n.
  rewrite He, toggle_count_app, status_count_app, sleep_count_app.
  rewrite Ect, Ecs, Ecn, Cs, Cn, Ct, Hf, Hna, Ht, Hs.
  repeat (split; [reflexivity || lia|]).
  split; [unfold On.MAX_WAIT, On.POLL_INTERVAL in Hb; lia|].
  split; [reflexivity|].
  rewrite (prints_check_mark d Reached) in Hend by (right; reflexivity).
  destruct Hend as [(-> & Hn & Hlast & Hbefore) | (-> & Hw & Hall)].
  - left; split; [reflexivity|]; split; [exact Hn|].
    split; [replace (1 + n - 1)%nat with n in Hlast by lia; exact Hlast|].
    intros k Hk; replace k with (1 + (k - 1))%nat by lia.
    apply Hbefore; lia.
  - right; split; [reflexivity|].
    split; [rewrite Hs in Hw; exact Hw|].
    intros k Hk; replace k with (1 + (k - 1))%nat by lia.
    apply Hall; lia.
Qed.

(** X15: on.py always ends, with exit code 0 or 1, after at most 31 status
    reads, 30 sleeps and one toggle; between two status reads it sleeps
    once. *)
Theorem On_main_ends_within_bounds (U : Unicode) (d : device) :
  exists (c : Z) (st : state),
    On.main d = Some (c, st) /\ (c = 0%Z \/ c = 1%Z) /\
    (1 <= status_count (events st) <= 31)%nat /\
    sleep_count (events st) = (status_count (events st) - 1)%nat /\
    (toggle_count (events st) <= 1)%nat.
Proof.
  rewrite On_main_split.
  destruct (str_eqb (On.reading d 0) ON).
  - eexists _, _; split; [reflexivity|]; split; [apply exit_zero_or_one|].
    destruct (On_first_read_facts d) as (He & _).
    destruct (warning_counts d 0) as (Wt & Ws & Wn).
    cbn [say emit events]; rewrite He.
    rewrite !toggle_count_app, !status_count_app, !sleep_count_app,
      Wt, Ws, Wn.
    unfold status_count, sleep_count, toggle_count; simpl.
    repeat split; lia.
  - destruct (On_loop_ends d) as (c & st & Hp).
    exists c, st; split; [exact Hp|].
    destruct (On_loop_facts d c st Hp)
      as (n & _ & _ & _ & -> & -> & -> & Hn & _ & Hend).
    split; [destruct Hend as [(-> & _) | (-> & _)];
            [destruct (encodable d 9989) |]; auto|].
    repeat split; lia.
Qed.







(** ** off.py: the whole session *)

Lemma Off_main_split `{Unicode} (d : device) :
  Off.main d =
  if str_eqb (Off.reading d 0) OFF
  then say_and_exit d Already 0 (Off_first_read d)
  else poll_until Off.get_status Off.POLL_INTERVAL Off.MAX_WAIT OFF d
         (Z.to_nat Off.MAX_WAIT) (Off_entry d).
Proof.
  unfold Off.main, Off_entry, Off_first_read.
  destruct (Off_reads_status d (say Checking (initial d))) as (Hs & _).
  destruct (Off.get_status d (say Checking (initial d))) as [status st1].
  cbn [fst snd say emit initial fetches] in *; subst status.
  destruct (str_eqb (Off.reading d 0) OFF); [reflexivity | apply Off_poll_until].
Qed.

Lemma Off_first_read_facts `{Unicode} (d : device) :
  events (Off_first_read d) =
    [Stdout Checking; GetStatus] ++ warning d 0 ++
    [Stdout (CurrentStatus (Off.reading d 0))] /\
  fetches (Off_first_read d) = 1%nat /\ naps (Off_first_read d) = 0%nat /\
  toggles (Off_first_read d) = 0%nat /\
  now (Off_first_read d) = (boot d + Z.of_N (status_delay d 0))%Z.
Proof.
  unfold Off_first_read.
  destruct (Off_reads_status d (say Checking (initial d)))
    as (_ & He & Hn & Hf & Ht & Hna & _).
  cbn [say emit initial events now fetches toggles naps app] in *.
  rewrite He, Hn, Hf, Ht, Hna; repeat split.
Qed.

Lemma Off_first_read_counts `{Unicode} (d : device) :
  toggle_count (events (Off_first_read d)) = 0%nat /\
  status_count (events (Off_first_read d)) = 1%nat /\
  sleep_count (events (Off_first_read d)) = 0%nat.
Proof.
  destruct (Off_first_read_facts d) as (-> & _).
  destruct (warning_counts d 0) as (Wt & Ws & Wn).
  rewrite !toggle_count_app, !status_count_app, !sleep_count_app, Wt, Ws, Wn.
  repeat split.
Qed.

(** The process of off.py when it enters its loop: one status read made,
    and one toggle sent if that read gave ON, none otherwise. *)
Lemma Off_entry_facts `{Unicode} (d : device) :
  fetches (Off_entry d) = 1%nat /\ naps (Off_entry d) = 0%nat /\
  toggles (Off_entry d) = (if str_eqb (Off.reading d 0) ON then 1 else 0)%nat /\
  start (Off_entry d) = now (Off_entry d) /\
  toggle_count (events (Off_entry d)) =
    (if str_eqb (Off.reading d 0) ON then 1 else 0)%nat /\
  status_count (events (Off_entry d)) = 1%nat /\
  sleep_count (events (Off_entry d)) = 0%nat.
Proof.
  destruct (Off_first_read_facts d) as (_ & Hf & Hna & Ht & _).
  destruct (Off_first_read_counts d) as (Ct & Cs & Cn).
  unfold Off_entry.
  destruct (str_eqb (Off.reading d 0) COOLING);
    destruct (str_eqb (Off.reading d 0) ON);
    unfold toggle_power;
    try destruct (toggle_reply d _);
    cbn [set_start say emit events now fetches toggles naps start];
    rewrite ?toggle_count_app, ?status_count_app, ?sleep_count_app,
      ?Ct, ?Cs, ?Cn, ?Hf, ?Hna, ?Ht;
    repeat split.
Qed.

Lemma Off_loop_ends `{Unicode} (d : device) :
  exists (c : Z) (st : state),
    poll_until Off.get_status Off.POLL_INTERVAL Off.MAX_WAIT OFF d
      (Z.to_nat Off.MAX_WAIT) (Off_entry d) = Some (c, st).
Proof.
  destruct (Off_poll_spec d (Z.to_nat Off.MAX_WAIT) (Off_entry d))
    as (c & st & _ & Hp & _).
  - destruct (Off_entry_facts d) as (_ & _ & _ & -> & _).
    unfold Off.MAX_WAIT, Off.POLL_INTERVAL; lia.
  - exists c, st; rewrite <- Off_poll_until; exact Hp.
Qed.

Lemma Off_loop_facts `{Unicode} (d : device) (c : Z) (st : state) :
  poll_until Off.get_status Off.POLL_INTERVAL Off.MAX_WAIT OFF d
    (Z.to_nat Off.MAX_WAIT) (Off_entry d) = Some (c, st) ->
  exists n : nat,
    fetches st = S n /\ naps st = n /\
    toggles st = (if str_eqb (Off.reading d 0) ON then 1 else 0)%nat /\
    status_count (events st) = S n /\ sleep_count (events st) = n /\
    toggle_count (events st) =
      (if str_eqb (Off.reading d 0) ON then 1 else 0)%nat /\
    (n <= 36)%nat /\
    start st = now (Off_entry d) /\
    ((c = (if encodable d 9989 then 0%Z else 1%Z) /\ (1 <= n)%nat /\
      Off.reading d n = OFF /\
      forall k, (1 <= k < n)%nat -> Off.reading d k <> OFF) \/
     (c = 1%Z /\ (180 <= now st - start st)%Z /\
      forall k, (1 <= k <= n)%nat -> Off.reading d k <> OFF)).
Proof.
  intros Hp.
  destruct (poll_until_facts _ _ _ _ _ d Off_reads_status _ _ _ _ Hp)
    as (n & loop & He & Hf & Hna & Ht & Hs & Cs & Cn & Ct & _ & Hb & Hend).
  destruct (Off_entry_facts d) as (Ef & Ena & Et & Es & Ect & Ecs & Ecn).
  rewrite Ef in Hf, Hend; rewrite Ena in Hna; rewrite Et in Ht.
  rewrite Es in Hs, Hb.
  exists n.
  rewrite He, toggle_count_app, status_count_app, sleep_count_app.
  rewrite Ect, Ecs, Ecn, Cs, Cn, Ct, Hf, Hna, Ht, Hs.
  repeat (split; [reflexivity || lia|]).
  split; [unfold Off.MAX_WAIT, Off.POLL_INTERVAL in Hb; lia|].
  split; [reflexivity|].
  rewrite (prints_check_mark d Reached) in Hend by (right; reflexivity).
  destruct Hend as [(-> & Hn & Hlast & Hbefore) | (-> & Hw & Hall)].
  - left; split; [reflexivity|]; split; [exact Hn|].
    split; [replace (1 + n - 1)%nat with n in Hlast by lia; exact Hlast|].
    intros k Hk; replace k with (1 + (k - 1))%nat by lia.
    apply Hbefore; lia.
  - right; split; [reflexivity|].
    split; [rewrite Hs in Hw; exact Hw|].
    intros k Hk; replace k with (1 + (k - 1))%nat by lia.
    apply Hall; lia.
Qed.

(** X19: off.py sends a toggle exactly when its first status read gives ON,
    and then exactly one in the whole run: on OFF, COOLING, an unknown token
    or a failed fetch it sends none, whatever the later reads give. *)
Theorem Off_main_toggle_iff_on (U : Unicode) (d : device) :
  exists (c : Z) (st : state),
    Off.main d = Some (c, st) /\
    toggle_count (events st) =
      (if str_eqb (Off.reading d 0) ON then 1 else 0)%nat /\
    toggles st = toggle_count (events st).
Proof.
  rewrite Off_main_split.
  destruct (str_eqb (Off.reading d 0) OFF) eqn:E.
  - apply str_eqb_eq in E.
    eexists _, _; split; [reflexivity|].
    destruct (Off_first_read_facts d) as (_ & _ & _ & Ht & _).
    destruct (Off_first_read_counts d) as (Ct & _).
    cbn [say emit events toggles].
    rewrite toggle_count_app, Ct, Ht, E; split; reflexivity.
  - destruct (Off_loop_ends d) as (c & st & Hp).
    exists c, st; split; [exact Hp|].
    destruct (Off_loop_facts d c st Hp) as (n & _ & _ & -> & _ & _ & -> & _).
    split; reflexivity.
Qed.

(** X20: off.py always ends, with exit code 0 or 1, after at most 37 status
    reads, 36 sleeps and one toggle; between two status reads it sleeps
    once. *)
Theorem Off_main_ends_within_bounds (U : Unicode) (d : device) :
  exists (c : Z) (st : state),
    Off.main d = Some (c, st) /\ (c = 0%Z \/ c = 1%Z) /\
    (1 <= status_count (events st) <= 37)%nat /\
    sleep_count (events st) = (status_count (events st) - 1)%nat /\
    (toggle_count (events st) <= 1)%nat.
Proof.
  rewrite Off_main_split.
  destruct (str_eqb (Off.reading d 0) OFF).
  - eexists _, _; split; [reflexivity|]; split; [apply exit_zero_or_one|].
    destruct (Off_first_read_counts d) as (Ct & Cs & Cn).
    cbn [say emit events].
    rewrite toggle_count_app, status_count_app, sleep_count_app, Ct, Cs, Cn.
    unfold status_count, sleep_count, toggle_count; simpl.
    repeat split; lia.
  - destruct (Off_loop_ends d) as (c & st & Hp).
    exists c, st; split; [exact Hp|].
    destruct (Off_loop_facts d c st Hp)
      as (n & _ & _ & _ & -> & -> & -> & Hn & _ & Hend).
    split; [destruct Hend as [(-> & _) | (-> & _)];
            [destruct (encodable d 9989) |]; auto|].
    destruct (str_eqb (Off.reading d 0) ON); repeat split; lia.
Qed.







(** ** query.py and the status readers *)

Lemma normalize_status_canonical `{Unicode} (s : option str) :
  In (On.normalize_status s) canonical /\
  In (Off.normalize_status s) canonical.
Proof.
  destruct s as [s|]; unfold On.normalize_status, Off.normalize_status,
    canonical; [|simpl; tauto].
  split;
    (destruct (in_tuple _ _); [simpl; tauto|]);
    (destruct (in_tuple _ _); [simpl; tauto|]);
    destruct (_ || _); simpl; tauto.
Qed.

Lemma Off_Query_normalize_same `{Unicode} (s : option str) :
  Query.normalize_status s = Off.normalize_status s.
Proof.
  destruct s as [s|]; [|reflexivity].
  unfold Off.normalize_status, Query.normalize_status.
  destruct (in_tuple _ _); reflexivity.
Qed.

(** X24: on every page query.py prints exactly one line, one of ON, OFF,
    COOLING and UNKNOWN, and its exit code goes with that line: 0 with ON,
    2 with OFF, 3 with COOLING, 4 with UNKNOWN; it never ends on an
    exception there. *)
Theorem Query_main_line_and_code (U : Unicode) (html : str) :
  exists status : str,
    fst (Query.main (inr html)) = [status] /\
    ((status = ON /\ snd (Query.main (inr html)) = Query.Exit 0) \/
     (status = OFF /\ snd (Query.main (inr html)) = Query.Exit 2) \/
     (status = COOLING /\ snd (Query.main (inr html)) = Query.Exit 3) \/
     (status = UNKNOWN /\ snd (Query.main (inr html)) = Query.Exit 4)).
Proof.
  exists (Query.normalize_status (fst (Query.parse_info_status html))).
  unfold Query.main.
  destruct (Query.parse_info_status html) as [first items]; cbn [fst snd].
  split; [reflexivity|].
  pose proof (Query_normalize_in_canonical first) as Hc.
  destruct Hc as [<- | [<- | [<- | [<- | []]]]]; cbn; tauto.
Qed.

(** X25: what query.py prints for a page is what the status reader of
    off.py measures on a device that serves that page. *)
Theorem Query_main_prints_off_reading (U : Unicode) (d : device) (k : nat)
    (html : str) :
  status_page d k = inr html ->
  fst (Query.main (inr html)) = [Off.reading d k].
Proof.
  intros Hpage; unfold Off.reading, Query.main; rewrite Hpage.
  destruct (parse_info_status_one_line html) as (Hoff & Hfst & _).
  rewrite Hoff, <- Hfst.
  destruct (Query.parse_info_status html) as [first items]; cbn [fst snd].
  rewrite Off_Query_normalize_same; reflexivity.
Qed.

Lemma Query_main_prints_off_reading_witness :
  status_page (steady (page_of "Power On")) 3 = inr (page_of "Power On") /\
  fst (@Query.main ascii_only (inr (page_of "Power On"))) =
  [@Off.reading ascii_only (steady (page_of "Power On")) 3].
Proof.
  split; [reflexivity|].
  exact (Query_main_prints_off_reading ascii_only
           (steady (page_of "Power On")) 3 (page_of "Power On") eq_refl).
Defined.


(** ** The decoding at the end of fetch *)

Lemma utf8_decode_ascii_prefix (m b : bytes) :
  ascii_bytes m = true ->
  utf8_decode (m ++ b) = option_map (app m) (utf8_decode b).
Proof.
  intros Hm; induction m as [|c m IH]; simpl.
  - destruct (utf8_decode b); reflexivity.
  - simpl in Hm; apply andb_true_iff in Hm; destruct Hm as [Hc Hm].
    rewrite Hc, (IH Hm); destruct (utf8_decode b); reflexivity.
Qed.

Lemma option_map_cons_inv (c : N) (r : option str) (s : str) :
  option_map (cons c) r = Some s -> exists s', r = Some s' /\ s = c :: s'.
Proof.
  destruct r as [s'|]; [|discriminate].
  intros H; injection H as <-; eauto.
Qed.

(** A UTF-8 text cut before an ASCII byte is cut between two characters:
    the two parts decode on their own. *)
Lemma utf8_decode_split (n : nat) :
  forall (a : bytes) (c : N) (t : bytes) (s : str),
  (List.length a <= n)%nat -> (c <? 128) = true ->
  utf8_decode (a ++ c :: t) = Some s ->
  exists a' t',
    utf8_decode a = Some a' /\ utf8_decode (c :: t) = Some t' /\
    s = a' ++ t'.
Proof.
  assert (Hcont : forall c, (c <? 128) = true -> continuation c = false).
  { intros c Hc; unfold continuation; apply N.ltb_lt in Hc.
    replace (128 <=? c) with false; [reflexivity|].
    symmetry; apply N.leb_gt; exact Hc. }
  induction n as [|n IH]; intros a c t s Hl Hc Hs.
  - destruct a; [|simpl in Hl; lia].
    exists [], s; auto.
  - destruct a as [|b0 a]; [exists [], s; auto|].
    cbn [app utf8_decode] in Hs.
    destruct (b0 <? 128) eqn:E1.
    { apply option_map_cons_inv in Hs; destruct Hs as (s1 & Hs1 & ->).
      destruct (IH a c t s1) as (a' & t' & Ha & Ht & ->);
        [simpl in Hl; lia | exact Hc | exact Hs1|].
      exists (b0 :: a'), t'; cbn [utf8_decode]; rewrite E1, Ha; auto. }
    destruct ((194 <=? b0) && (b0 <=? 223)) eqn:E2.
    { destruct a as [|b1 a]; cbn [app] in Hs.
      - rewrite (Hcont c Hc) in Hs; discriminate.
      - destruct (continuation b1) eqn:C1; [|discriminate].
        apply option_map_cons_inv in Hs; destruct Hs as (s1 & Hs1 & ->).
        destruct (IH a c t s1) as (a' & t' & Ha & Ht & ->);
          [simpl in Hl; lia | exact Hc | exact Hs1|].
        eexists (_ :: a'), t'; cbn [utf8_decode].
        rewrite E1, E2, C1, Ha; cbn [option_map].
        split; [reflexivity | split; [exact Ht | reflexivity]]. }
    destruct ((224 <=? b0) && (b0 <=? 239)) eqn:E3.
    { destruct a as [|b1 [|b2 a]]; cbn [app] in Hs.
      - destruct t; [discriminate|].
        rewrite (Hcont c Hc) in Hs; discriminate.
      - rewrite (Hcont c Hc), andb_false_r in Hs; discriminate.
      - match type of Hs with (if ?g then _ else _) = _ =>
          destruct g eqn:C1; [|discriminate] end.
        apply option_map_cons_inv in Hs; destruct Hs as (s1 & Hs1 & ->).
        destruct (IH a c t s1) as (a' & t' & Ha & Ht & ->);
          [simpl in Hl; lia | exact Hc | exact Hs1|].
        eexists (_ :: a'), t'; cbn [utf8_decode].
        rewrite E1, E2, E3, C1, Ha; cbn [option_map].
        split; [reflexivity | split; [exact Ht | reflexivity]]. }
    destruct ((240 <=? b0) && (b0 <=? 244)) eqn:E4; [|discriminate].
    destruct a as [|b1 [|b2 [|b3 a]]]; cbn [app] in Hs.
    + destruct t as [|? [|? ?]]; try discriminate.
      rewrite (Hcont c Hc) in Hs; discriminate.
    + destruct t; [discriminate|].
      rewrite (Hcont c Hc), andb_false_r in Hs; discriminate.
    + rewrite (Hcont c Hc), andb_false_r in Hs; discriminate.
    + match type of Hs with (if ?g then _ else _) = _ =>
        destruct g eqn:C1; [|discriminate] end.
      apply option_map_cons_inv in Hs; destruct Hs as (s1 & Hs1 & ->).
      destruct (IH a c t s1) as (a' & t' & Ha & Ht & ->);
        [simpl in Hl; lia | exact Hc | exact Hs1|].
      eexists (_ :: a'), t'; cbn [utf8_decode].
      rewrite E1, E2, E3, E4, C1, Ha; cbn [option_map].
      split; [reflexivity | split; [exact Ht | reflexivity]].
Qed.

(** X27: a body of ASCII bytes is decoded to the text with the same
    numbers, one character for each byte. *)
Theorem fetch_decode_ascii (raw : bytes) :
  ascii_bytes raw = true -> fetch_decode raw = raw.
Proof.
  intros Hr; unfold fetch_decode.
  rewrite <- (app_nil_r raw) at 1.
  rewrite (utf8_decode_ascii_prefix raw [] Hr); simpl.
  apply app_nil_r.
Qed.

Lemma fetch_decode_ascii_witness :
  ascii_bytes (page_of "STANDBY") = true /\
  fetch_decode (page_of "STANDBY") = page_of "STANDBY".
Proof.
  split; [reflexivity|].
  exact (fetch_decode_ascii (page_of "STANDBY") eq_refl).
Defined.

(** X28: a stretch of ASCII bytes in a body is in the decoded text as it
    is, whatever the bytes around it are, valid UTF-8 or not; when it opens
    the body, it opens the text. *)
Theorem fetch_decode_keeps_ascii (a m b : bytes) :
  ascii_bytes m = true ->
  exists a' b' : str,
    fetch_decode (a ++ m ++ b) = a' ++ m ++ b' /\ (a = [] -> a' = []).
Proof.
  intros Hm; unfold fetch_decode.
  destruct (utf8_decode (a ++ m ++ b)) as [s|] eqn:Es;
    [|exists a, b; split; [reflexivity | auto]].
  destruct m as [|c m]; [exists [], s; split; [reflexivity | auto]|].
  simpl in Hm; apply andb_true_iff in Hm; destruct Hm as [Hc Hm].
  change (a ++ (c :: m) ++ b) with (a ++ c :: (m ++ b)) in Es.
  destruct (utf8_decode_split (List.length a) a c (m ++ b) s
              (Nat.le_refl _) Hc Es)
    as (a' & t' & Ha & Ht & ->).
  cbn [utf8_decode] in Ht; rewrite Hc in Ht.
  rewrite (utf8_decode_ascii_prefix m b Hm) in Ht.
  destruct (utf8_decode b) as [b'|]; [|discriminate].
  injection Ht as <-.
  exists a', b'; split; [reflexivity|].
  intros ->; injection Ha as <-; reflexivity.
Qed.

Lemma fetch_decode_keeps_ascii_witness :
  ascii_bytes declaration = true /\
  exists a' b' : str,
    fetch_decode ([233; 116; 233] ++ declaration ++ [176; 67]) =
    a' ++ declaration ++ b'.
Proof.
  split; [reflexivity|].
  destruct (fetch_decode_keeps_ascii [233; 116; 233] declaration [176; 67]
              eq_refl) as (a' & b' & H & _).
  exists a', b'; exact H.
Defined.
